(** * Autonomous QA Agent: a shallow embedding of the retrieval and
    generation pipeline

    The development follows the Python sources:
    - [selenium_generator.py]: [extract_html_structure], [validate_script];
    - [document_processor.py]: [_extract_html], [chunk_text];
    - [vector_store.py]: [create_collection], [generate_embeddings],
      [add_documents], [search], [get_collection_info].

    Conventions.  A Python [str] is a [string]; Python [int]s are [Z];
    a [dict] keyed by strings is a [gmap string _]; code that may raise
    lives in the exception monad [exc]; code that talks to the vector
    index additionally threads the state of the outside world. *)

From Stdlib Require Import ZArith Lia Ascii.
From stdpp Require Import gmap strings list fin_maps pretty.

Open Scope string_scope.
Open Scope list_scope.
Open Scope Z_scope.
Set Warnings "-register-all".

(** ** Python values, exceptions, strings *)

Module Py.

Inductive exn : Type :=
| TypeError (msg : string)
| AttributeError (msg : string)
| KeyError (key : string)
| IndexError (msg : string)
| ValidationError (msg : string)
| IOError (msg : string).

(** [str(e)] *)
Definition str_exn (e : exn) : string :=
  match e with
  | TypeError m | AttributeError m | IndexError m
  | ValidationError m | IOError m => m
  | KeyError k => "'" +:+ k +:+ "'"
  end.

Inductive exc (A : Type) : Type :=
| Ok (a : A)
| Raise (e : exn).
Arguments Ok {A} a.
Arguments Raise {A} e.

#[global] Instance exc_ret : MRet exc := λ A a, Ok a.
#[global] Instance exc_bind : MBind exc := λ A B f m,
  match m with Ok a => f a | Raise e => Raise e end.

(** [try: body except Exception as e: handler(e)] *)
Definition try_except {A} (body : exc A) (handler : exn → exc A) : exc A :=
  match body with Ok a => Ok a | Raise e => handler e end.

(** [s.startswith(p)] *)
Fixpoint startswith (p s : string) : bool :=
  match p, s with
  | EmptyString, _ => true
  | String a p', String b s' => if Ascii.eqb a b then startswith p' s' else false
  | String _ _, EmptyString => false
  end.

(** [needle in hay] for two strings: the substring test. *)
Fixpoint str_in (needle hay : string) : bool :=
  if startswith needle hay then true
  else match hay with
       | EmptyString => false
       | String _ hay' => str_in needle hay'
       end.

(** What it means for [needle] to occur in [hay]. *)
Definition occurs (needle hay : string) : Prop :=
  ∃ pre post, hay = pre +:+ needle +:+ post.

(** [sep.join(parts)] *)
Fixpoint join (sep : string) (parts : list string) : string :=
  match parts with
  | [] => ""
  | [p] => p
  | p :: rest => p +:+ sep +:+ join sep rest
  end.

(** The objects a caller may hand to a function annotated [str]. *)
Inductive pyobj : Type :=
| PyStr (s : string)
| PyNone
| PyInt (n : Z)
| PyList (items : list pyobj).

Definition type_name (o : pyobj) : string :=
  match o with
  | PyStr _ => "str"
  | PyNone => "NoneType"
  | PyInt _ => "int"
  | PyList _ => "list"
  end.

(** [needle in container], for a string [needle]. *)
Definition py_in (needle : string) (container : pyobj) : exc bool :=
  match container with
  | PyStr s => Ok (str_in needle s)
  | PyList items =>
      Ok (existsb (λ it, match it with PyStr s => String.eqb s needle | _ => false end) items)
  | PyNone | PyInt _ =>
      Raise (TypeError ("argument of type '" +:+ type_name container +:+ "' is not iterable"))
  end.

Definition py_not_in (needle : string) (container : pyobj) : exc bool :=
  b ← py_in needle container; mret (negb b : bool).

(** [any(p(x) for x in xs)]: stops at the first true, and at the first
    exception. *)
Fixpoint py_any {A} (p : A → exc bool) (xs : list A) : exc bool :=
  match xs with
  | [] => Ok false
  | x :: xs' => b ← p x; if b : bool then Ok true else py_any p xs'
  end.

(** [for x in xs: acc = step(acc, x)] *)
Fixpoint for_acc {A St} (step : St → A → exc St) (acc : St) (xs : list A) : exc St :=
  match xs with
  | [] => Ok acc
  | x :: xs' => acc' ← step acc x; for_acc step acc' xs'
  end.

(** [str.isspace] on one character (code points below 256). *)
Definition is_space (c : Ascii.ascii) : bool :=
  let n := Ascii.N_of_ascii c in
  ((9 <=? n) && (n <=? 13) || (28 <=? n) && (n <=? 32) || (n =? 133) || (n =? 160))%N.

Fixpoint lstrip (s : string) : string :=
  match s with
  | String c s' => if is_space c then lstrip s' else s
  | EmptyString => EmptyString
  end.

Fixpoint rstrip (s : string) : string :=
  match s with
  | EmptyString => EmptyString
  | String c s' =>
      match rstrip s' with
      | EmptyString => if is_space c then EmptyString else String c EmptyString
      | r => String c r
      end
  end.

(** [s.strip()] *)
Definition strip (s : string) : string := rstrip (lstrip s).

(** Values found in attribute dictionaries and element descriptors:
    a string, a list of strings, or [None]. *)
Inductive value : Type :=
| VStr (s : string)
| VList (l : list string)
| VNone.

(** [v in choices], where [choices] is a list of string literals. *)
Definition value_in (v : value) (choices : list string) : bool :=
  match v with
  | VStr s => existsb (String.eqb s) choices
  | VList _ | VNone => false
  end.

End Py.
Import Py.

(** ** The parse tree of BeautifulSoup *)

Module Bs4.

(** A page element: a tag with its attribute dictionary and children, a
    text string, or a string that is not text (comment, doctype). *)
Inductive node : Type :=
| Tag (name : string) (attrs : gmap string value) (contents : list node)
| NavigableString (s : string)
| Comment (s : string).

(** [tag.name]; strings have none. *)
Definition name (n : node) : option string :=
  match n with
  | Tag nm _ _ => Some nm
  | NavigableString _ | Comment _ => None
  end.

(** [tag.name == s] *)
Definition name_is (s : string) (n : node) : bool :=
  match name n with
  | Some nm => String.eqb nm s
  | None => false
  end.

(** [tag.attrs] *)
Definition attrs_of (n : node) : gmap string value :=
  match n with
  | Tag _ attrs _ => attrs
  | NavigableString _ | Comment _ => ∅
  end.

(** [tag.get(key, default)] *)
Definition get (n : node) (key : string) (default : value) : value :=
  match n with
  | Tag _ attrs _ =>
      match attrs !! key with
      | Some v => v
      | None => default
      end
  | NavigableString _ | Comment _ => default
  end.

(** [tag.descendants]: every element below the tag, in document order. *)
Fixpoint descendants (n : node) : list node :=
  match n with
  | Tag _ _ cs =>
      (fix below (l : list node) : list node :=
         match l with
         | [] => []
         | c :: l' => c :: descendants c ++ below l'
         end) cs
  | NavigableString _ | Comment _ => []
  end.

(** [tag.find_all(names)]: the descendant tags whose name is listed. *)
Definition find_all (names : list string) (n : node) : list node :=
  List.filter (λ d, existsb (λ nm, name_is nm d) names) (descendants n).

(** [tag.find(nm)]: the first such tag, or [None]. *)
Definition find (nm : string) (n : node) : option node :=
  head (find_all [nm] n).

(** The strings [get_text] joins: text strings only, stripped and
    dropped when empty if [strip] is set. *)
Definition all_strings (strip_ : bool) (n : node) : list string :=
  flat_map (λ d,
    match d with
    | NavigableString s =>
        if strip_ then
          match strip s with
          | EmptyString => []
          | s' => [s']
          end
        else [s]
    | Tag _ _ _ | Comment _ => []
    end) (descendants n).

(** [tag.get_text(separator=separator, strip=strip_)] *)
Definition get_text (separator : string) (strip_ : bool) (n : node) : string :=
  join separator (all_strings strip_ n).

End Bs4.

(** ** selenium_generator.py *)

Module SeleniumScriptGenerator.
Import Bs4.

Abbreviation descriptor := (gmap string value).

Section Extract.
(** [BeautifulSoup(markup, 'html.parser')], which may raise. *)
Variable html_parser : string → exc node.

Definition form_descriptor (form : node) : descriptor :=
  {[ "id" := get form "id" (VStr "");
     "name" := get form "name" (VStr "");
     "class" := get form "class" (VList []);
     "action" := get form "action" (VStr "") ]}.

(** The guard of the button loop: [continue] when it holds. *)
Definition not_a_button (button : node) : bool :=
  name_is "input" button && negb (value_in (get button "type" VNone) ["button"; "submit"]).

Definition button_descriptor (button : node) : descriptor :=
  {[ "id" := get button "id" (VStr "");
     "name" := get button "name" (VStr "");
     "class" := get button "class" (VList []);
     "text" := (if name_is "button" button
                then VStr (get_text "" true button)
                else get button "value" (VStr ""));
     "type" := get button "type" (VStr "") ]}.

Definition input_descriptor (inp : node) : descriptor :=
  {[ "id" := get inp "id" (VStr "");
     "name" := get inp "name" (VStr "");
     "class" := get inp "class" (VList []);
     "type" := get inp "type" (VStr "text");
     "placeholder" := get inp "placeholder" (VStr "") ]}.

Definition select_descriptor (select : node) : descriptor :=
  let options := map (get_text "" true) (find_all ["option"] select) in
  {[ "id" := get select "id" (VStr "");
     "name" := get select "name" (VStr "");
     "class" := get select "class" (VList []);
     "options" := VList options ]}.

Definition link_descriptor (link : node) : descriptor :=
  {[ "id" := get link "id" (VStr "");
     "class" := get link "class" (VList []);
     "text" := VStr (get_text "" true link);
     "href" := get link "href" (VStr "") ]}.

(** [for x in xs: if skip(x): continue; out.append(describe(x))] *)
Definition collect (skip : node → bool) (describe : node → descriptor)
    (xs : list node) : list descriptor :=
  foldl (λ out x, if skip x then out else out ++ [describe x]) [] xs.

Definition extract_html_structure (html_content : string)
    : gmap string (list descriptor) :=
  match html_parser html_content with
  | Ok soup =>
      {[ "forms" := collect (λ _, false) form_descriptor (find_all ["form"] soup);
         "buttons" := collect not_a_button button_descriptor
                        (find_all ["button"; "input"] soup);
         "inputs" := collect (λ _, false) input_descriptor (find_all ["input"] soup);
         "selects" := collect (λ _, false) select_descriptor (find_all ["select"] soup);
         "links" := collect (λ _, false) link_descriptor (find_all ["a"] soup) ]}
  | Raise _ => ∅
  end.

End Extract.


(** The validation report.  The dictionary built on the normal path has
    the three keys; the one built by the exception handler has no
    ["warnings"] key. *)
Record report : Type := Report {
  valid : bool;
  warnings : option (list string);
  errors : list string;
}.

Definition required_imports : list string := ["selenium"; "webdriver"; "WebDriverWait"].
Definition required_methods : list string := ["find_element"; "click"; "send_keys"].

Definition validate_script_body (script : pyobj) : exc report :=
  warnings0 ← for_acc (λ ws imp,
                 missing ← py_not_in imp script;
                 mret (if missing : bool then ws ++ ["Missing import: " +:+ imp] else ws))
               [] required_imports;
  has_methods ← py_any (λ method, py_in method script) required_methods;
  let errors1 := if negb has_methods then ["No Selenium methods found"] else [] in
  let valid1 := if negb has_methods then false else true in
  no_try ← py_not_in "try:" script;
  no_handling ← (if no_try : bool then mret true else py_not_in "except" script);
  let warnings1 := if no_handling : bool then warnings0 ++ ["Missing error handling"] else warnings0 in
  mret (Report valid1 (Some warnings1) errors1).

Definition validate_script (script : pyobj) : report :=
  match validate_script_body script with
  | Ok r => r
  | Raise e => Report false None [str_exn e]
  end.

End SeleniumScriptGenerator.

(** ** document_processor.py *)

Module DocumentProcessor.
Import Bs4.

(** Metadata values: file names and paths are strings, chunk numbers
    are integers. *)
Inductive meta_value : Type :=
| MStr (s : string)
| MInt (n : Z).

(** A chunk: [{"content": ..., "metadata": {...}}]. *)
Record document : Type := Document {
  content : string;
  metadata : gmap string meta_value;
}.

(** The line feed character, ['\n']. *)
Definition LF : string := String (Ascii.ascii_of_nat 10) EmptyString.

(** [enumerate(xs)] *)
Definition enumerate {A} (xs : list A) : list (nat * A) :=
  zip (seq 0 (length xs)) xs.

Section Processor.
(** [open(file_path, 'r', encoding='utf-8').read()] *)
Variable open_read : string → exc string.
(** [BeautifulSoup(markup, 'html.parser')] *)
Variable html_parser : string → exc node.
(** [RecursiveCharacterTextSplitter.split_text] *)
Variable split_text : string → exc (list string).

Definition _extract_html (file_path : string) : exc string :=
  try_except
    (html_content ← open_read file_path;
     soup ← html_parser html_content;
     let text_parts := [] in
     let title := find "title" soup in
     let text_parts :=
       match title with
       | Some t => text_parts ++ ["Title: " +:+ get_text "" true t]
       | None => text_parts
       end in
     let text_parts := text_parts ++ [LF +:+ "Content:"] in
     let text_parts := text_parts ++ [get_text LF true soup] in
     let text_parts := text_parts ++ [LF +:+ "--- HTML Structure ---"] in
     let text_parts := text_parts ++ [html_content] in
     mret (join LF text_parts))
    (λ e, Raise e).

Definition chunk_text (text : string) (metadata : gmap string meta_value)
    : list document :=
  let body : exc (list document) :=
    chunks ← split_text text;
    let chunked_documents :=
      foldl (λ out '(i, chunk),
               let doc :=
                 Document chunk
                   (<["total_chunks" := MInt (Z.of_nat (length chunks))]>
                      (<["chunk_id" := MInt (Z.of_nat i)]> metadata)) in
               out ++ [doc])
            [] (enumerate chunks) in
    mret chunked_documents in
  match body with
  | Ok docs => docs
  | Raise _ => []
  end.

End Processor.

End DocumentProcessor.

(** ** vector_store.py *)

Module VectorStore.
Import DocumentProcessor.

(** Values of a metadata filter.  [MatchValue] accepts booleans,
    integers and strings; anything else fails its validation. *)
Inductive filter_value : Type :=
| FBool (b : bool)
| FInt (n : Z)
| FStr (s : string)
| FOther.

Inductive match_value : Type :=
| MatchBool (b : bool)
| MatchInt (n : Z)
| MatchStr (s : string).

(** [MatchValue(value=v)] *)
Definition MatchValue (v : filter_value) : exc match_value :=
  match v with
  | FBool b => Ok (MatchBool b)
  | FInt n => Ok (MatchInt n)
  | FStr s => Ok (MatchStr s)
  | FOther => Raise (ValidationError "1 validation error for MatchValue")
  end.

(** [Filter(must=[FieldCondition(key=..., match=...), ...])] *)
Abbreviation query_filter := (list (string * match_value)).

(** [xs[0]] *)
Definition first_item {A} (xs : list A) : exc A :=
  match xs with
  | x :: _ => Ok x
  | [] => Raise (IndexError "list index out of range")
  end.

(** [range(start, stop, step)] for a positive [step]. *)
Definition range (start stop step : nat) : list nat :=
  map (λ k, start + k * step)%nat (seq 0 ((stop - start + step - 1) / step)%nat).

(** [xs[i:j]] for [0 <= i <= j]. *)
Definition slice {A} (xs : list A) (i j : nat) : list A :=
  take (j - i) (drop i xs).

Section Store.
(** Floating-point numbers are kept abstract. *)
Variable float : Type.

Record point : Type := PointStruct {
  id : string;
  vector : list float;
  payload : document;
}.

Record scored_point : Type := ScoredPoint {
  sp_payload : document;
  sp_score : float;
}.

(** One formatted search result. *)
Record hit : Type := Hit {
  hit_content : string;
  hit_metadata : gmap string meta_value;
  hit_score : float;
}.

Record collection : Type := Collection {
  vector_size : nat;
  points : list point;
}.

(** Calls that leave the process. *)
Inductive request : Type :=
| GetCollections
| DeleteCollection (name : string)
| CreateCollection (name : string) (size : nat)
| Upsert (name : string) (batch : list point)
| Search (name : string) (query_vector : list float) (limit : Z)
         (flt : option query_filter)
| Encode (texts : list string).

(** The outside world: the collections held by the index, what will
    go wrong with the coming external calls ([Some e]: the call
    raises [e] and changes nothing; [None] or an exhausted schedule:
    the call is served), the calls issued so far in order, and the
    number of identifiers drawn. *)
Record world : Type := World {
  collections : gmap string collection;
  faults : list (option exn);
  requests : list request;
  uuids_drawn : nat;
}.

Definition M (A : Type) : Type := world → exc A * world.

#[global] Instance M_ret : MRet M := λ A a w, (Ok a, w).
#[global] Instance M_bind : MBind M := λ A B f m w,
  match m w with
  | (Ok a, w') => f a w'
  | (Raise e, w') => (Raise e, w')
  end.

(** [try: body except Exception as e: handler(e)] *)
Definition try_M {A} (body : M A) (handler : exn → M A) : M A := λ w,
  match body w with
  | (Ok a, w') => (Ok a, w')
  | (Raise e, w') => handler e w'
  end.

Definition lift {A} (x : exc A) : M A := λ w, (x, w).

(** [for x in xs: body(x)] *)
Fixpoint for_each {A} (xs : list A) (body : A → M unit) : M unit :=
  match xs with
  | [] => mret tt
  | x :: xs' => body x;; for_each xs' body
  end.

(** [[f(x) for x in xs]] *)
Fixpoint map_M {A B} (f : A → M B) (xs : list A) : M (list B) :=
  match xs with
  | [] => mret []
  | x :: xs' => y ← f x; ys ← map_M f xs'; mret (y :: ys)
  end.

(** An external call: it is recorded, consumes one entry of the fault
    schedule, and is served by [serve] unless the schedule says it
    fails. *)
Definition external {A} (rq : request)
    (serve : gmap string collection → exc (A * gmap string collection)) : M A := λ w,
  let issued := requests w ++ [rq] in
  match faults w with
  | Some e :: fs => (Raise e, World (collections w) fs issued (uuids_drawn w))
  | fs =>
      match serve (collections w) with
      | Ok (a, cs) => (Ok a, World cs (tail fs) issued (uuids_drawn w))
      | Raise e => (Raise e, World (collections w) (tail fs) issued (uuids_drawn w))
      end
  end.

(** The embedding model, the ranking of the index and the identifier
    generator, as functions. *)
Variable encode_model : list string → list (list float).
Variable nearest : list point → list float → Z → option query_filter → list scored_point.
Variable uuid_of : nat → string.

(** Writing a point replaces the stored point with the same id. *)
Definition upsert_point (stored : list point) (p : point) : list point :=
  List.filter (λ q, negb (String.eqb (id q) (id p))) stored ++ [p].

Definition not_found {A} : exc A := Raise (IOError "404 Not Found").

Definition get_collections : M (list string) :=
  external GetCollections (λ cs, Ok ((map_to_list cs).*1, cs)).

Definition delete_collection (name : string) : M unit :=
  external (DeleteCollection name) (λ cs, Ok (tt, delete name cs)).

Definition client_create_collection (name : string) (size : nat) : M unit :=
  external (CreateCollection name size) (λ cs,
    match cs !! name with
    | Some _ => Raise (IOError "409 Conflict")
    | None => Ok (tt, <[name := Collection size []]> cs)
    end).

Definition upsert (name : string) (batch : list point) : M unit :=
  external (Upsert name batch) (λ cs,
    match cs !! name with
    | Some c => Ok (tt, <[name := Collection (vector_size c)
                                     (foldl upsert_point (points c) batch)]> cs)
    | None => not_found
    end).

Definition client_search (name : string) (query_vector : list float) (limit : Z)
    (flt : option query_filter) : M (list scored_point) :=
  external (Search name query_vector limit flt) (λ cs,
    match cs !! name with
    | Some c => Ok (nearest (points c) query_vector limit flt, cs)
    | None => not_found
    end).

Definition encode (texts : list string) : M (list (list float)) :=
  external (Encode texts) (λ cs, Ok (encode_model texts, cs)).

(** [str(uuid.uuid4())] *)
Definition uuid4 : M string := λ w,
  (Ok (uuid_of (uuids_drawn w)),
   World (collections w) (faults w) (requests w) (S (uuids_drawn w))).

(** [settings.QDRANT_COLLECTION_NAME] *)
Variable collection_name : string.

Definition create_collection (force_recreate : bool) : M bool :=
  try_M
    (collections ← get_collections;
     let collection_exists := existsb (λ col, String.eqb col collection_name) collections in
     collection_exists ←
       (if collection_exists && force_recreate
        then delete_collection collection_name;; mret false
        else mret collection_exists);
     (if negb collection_exists
      then test_embedding ← encode ["test"];
           probe ← lift (first_item test_embedding);
           let vector_size := length probe in
           client_create_collection collection_name vector_size
      else mret tt);;
     mret true)
    (λ _, mret false).

Definition generate_embeddings (texts : list string) : M (list (list float)) :=
  try_M (encode texts) (λ _, mret []).

Definition add_documents (documents : list document) : M bool :=
  try_M
    (match documents with
     | [] => mret false
     | _ =>
         let texts := map content documents in
         embeddings ← generate_embeddings texts;
         match embeddings with
         | [] => mret false
         | _ =>
             points ← map_M (λ '(doc, embedding),
                               i ← uuid4; mret (PointStruct i embedding doc))
                            (zip documents embeddings);
             let batch_size := 100%nat in
             for_each (range 0 (length points) batch_size) (λ i,
               let batch := slice points i (i + batch_size) in
               upsert collection_name batch);;
             mret true
         end
     end)
    (λ _, mret false).

(** [if filter_dict:] *)
Definition provided (filter_dict : option (list (string * filter_value))) : bool :=
  match filter_dict with
  | Some (_ :: _) => true
  | Some [] | None => false
  end.

(** The body of the [try] in [search]. *)
Definition search_attempt (query : string) (top_k : Z)
    (filter_dict : option (list (string * filter_value))) : M (list hit) :=
  encoded ← encode [query];
  query_embedding ← lift (first_item encoded);
  let search_filter : option query_filter :=
    if provided filter_dict then
      match for_acc (λ conditions '(key, v),
                       m ← MatchValue v;
                       mret (conditions ++ [("metadata." +:+ key, m)]))
                    [] (default [] filter_dict) with
      | Ok (c :: conditions) => Some (c :: conditions)
      | Ok [] => None
      | Raise _ => None
      end
    else None in
  results ← client_search collection_name query_embedding top_k search_filter;
  mret (map (λ r, Hit (content (sp_payload r)) (metadata (sp_payload r)) (sp_score r))
            results).

(** [search] calls itself from its exception handler; [None] is
    returned only when the recursion budget is used up. *)
Fixpoint search_fuel (fuel : nat) (query : string) (top_k : Z)
    (filter_dict : option (list (string * filter_value))) : M (option (list hit)) :=
  match fuel with
  | O => mret None
  | S fuel' =>
      try_M (formatted_results ← search_attempt query top_k filter_dict;
             mret (Some formatted_results))
            (λ _, if provided filter_dict
                  then search_fuel fuel' query top_k None
                  else mret (Some []))
  end.

(** [search(query, top_k, filter_dict)]: one retry is the deepest the
    recursion goes. *)
Definition search (query : string) (top_k : Z)
    (filter_dict : option (list (string * filter_value))) : M (option (list hit)) :=
  search_fuel 2 query top_k filter_dict.

End Store.

Arguments PointStruct {float} id vector payload.
Arguments id {float} p.
Arguments vector {float} p.
Arguments payload {float} p.
Arguments ScoredPoint {float} sp_payload sp_score.
Arguments Hit {float} hit_content hit_metadata hit_score.
Arguments Collection {float} vector_size points.
Arguments vector_size {float} c.
Arguments points {float} c.
Arguments GetCollections {float}.
Arguments DeleteCollection {float} name.
Arguments CreateCollection {float} name size.
Arguments Upsert {float} name batch.
Arguments Search {float} name query_vector limit flt.
Arguments Encode {float} texts.
Arguments World {float} collections faults requests uuids_drawn.
Arguments collections {float} w.
Arguments faults {float} w.
Arguments requests {float} w.
Arguments uuids_drawn {float} w.

(** *** Collection statistics over plain HTTP *)

(** What [response.json()] can return. *)
Inductive json : Type :=
| JNull
| JBool (b : bool)
| JInt (n : Z)
| JFloat (literal : string)
| JStr (s : string)
| JList (items : list json)
| JDict (fields : gmap string json).

(** [o.get(key, default)]: only dictionaries have the method. *)
Definition dict_get (o : json) (key : string) (default : json) : exc json :=
  match o with
  | JDict fields =>
      match fields !! key with
      | Some v => Ok v
      | None => Ok default
      end
  | JNull | JBool _ | JInt _ | JFloat _ | JStr _ | JList _ =>
      Raise (AttributeError "object has no attribute 'get'")
  end.

Record response : Type := Response {
  status_code : Z;
  (** the outcome of [response.json()] *)
  json_body : exc json;
}.

Record Settings : Type := {
  QDRANT_URL : string;
  QDRANT_API_KEY : string;
  QDRANT_HOST : string;
  QDRANT_PORT : Z;
  QDRANT_COLLECTION_NAME : string;
}.

(** Truth value of a string: non-empty. *)
Definition nonempty (s : string) : bool :=
  match s with
  | EmptyString => false
  | String _ _ => true
  end.

(** [s.rstrip('/')] *)
Fixpoint rstrip_slash (s : string) : string :=
  match s with
  | EmptyString => EmptyString
  | String a s' =>
      match rstrip_slash s' with
      | EmptyString => if Ascii.eqb a "/"%char then EmptyString else String a EmptyString
      | r => String a r
      end
  end.

(** [s.replace('::', ':')] *)
Fixpoint replace_double_colon (s : string) : string :=
  match s with
  | EmptyString => EmptyString
  | String a rest =>
      match rest with
      | String b rest' =>
          if Ascii.eqb a ":"%char && Ascii.eqb b ":"%char
          then String ":"%char (replace_double_colon rest')
          else String a (replace_double_colon rest)
      | EmptyString => String a EmptyString
      end
  end.

Section Info.
Variable settings : Settings.
(** [requests.get(url, headers=headers, timeout=10)] *)
Variable requests_get : string → option (list (string * string)) → exc response.

Definition get_collection_info : gmap string json :=
  let collection_name := QDRANT_COLLECTION_NAME settings in
  let body : exc (gmap string json) :=
    response ←
      (if nonempty (QDRANT_URL settings) && nonempty (QDRANT_API_KEY settings)
       then
         let url :=
           replace_double_colon
             (rstrip_slash (QDRANT_URL settings) +:+ ":" +:+
              (if negb (str_in ":" (QDRANT_URL settings))
               then pretty (QDRANT_PORT settings) else "") +:+
              "/collections/" +:+ collection_name) in
         let headers := [("api-key", QDRANT_API_KEY settings)] in
         requests_get url (Some headers)
       else
         let url :=
           "http://" +:+ QDRANT_HOST settings +:+ ":" +:+
           pretty (QDRANT_PORT settings) +:+ "/collections/" +:+ collection_name in
         requests_get url None);
    if status_code response =? 200 then
      data ← json_body response;
      result ← dict_get data "result" (JDict ∅);
      points_count ← dict_get result "points_count" (JInt 0);
      vectors_count ← dict_get result "vectors_count" (JInt 0);
      status ← dict_get result "status" (JStr "unknown");
      mret ({[ "name" := JStr collection_name;
               "points_count" := points_count;
               "vectors_count" := vectors_count;
               "status" := status ]} : gmap string json)
    else
      mret ({[ "name" := JStr collection_name;
               "points_count" := JInt 0 ]} : gmap string json) in
  match body with
  | Ok info => info
  | Raise _ =>
      {[ "name" := JStr collection_name;
         "points_count" := JInt 0;
         "vectors_count" := JInt 0;
         "status" := JStr "unknown" ]}
  end.

End Info.

End VectorStore.

(** ** Notions used to state the properties *)

Module Statements.
Import Bs4 SeleniumScriptGenerator DocumentProcessor.

#[global] Instance value_eq_dec : EqDecision value.
Proof. solve_decision. Defined.

(** An element that counts as a button: a [<button>], or an [<input>]
    whose [type] attribute is ["button"] or ["submit"]. *)
Definition button_like (e : node) : Prop :=
  name e = Some "button"
  ∨ (name e = Some "input"
     ∧ (attrs_of e !! "type" = Some (VStr "button")
        ∨ attrs_of e !! "type" = Some (VStr "submit"))).

#[global] Instance button_like_dec (e : node) : Decision (button_like e).
Proof. unfold button_like. apply _. Defined.

(** The descriptor field [field], read from the attribute [attribute],
    is [dflt] on every element that lacks the attribute. *)
Definition defaults_to (describe : node → descriptor) (field attribute : string)
    (dflt : value) : Prop :=
  ∀ e, attrs_of e !! attribute = None → describe e !! field = Some dflt.

(** The document made from the [i]-th of [n] chunks. *)
Definition doc_of (md : gmap string meta_value) (n : nat) (ic : nat * string) : document :=
  Document ic.2
    (<["total_chunks" := MInt (Z.of_nat n)]> (<["chunk_id" := MInt (Z.of_nat ic.1)]> md)).

(** A page with one form holding a text input, a submit input, a
    select with two options and a button, followed by a link. *)
Definition sample_page : node :=
  Tag "[document]" ∅
    [Tag "form" {[ "id" := VStr "checkout" ]}
       [Tag "input" {[ "type" := VStr "text"; "name" := VStr "email" ]} [];
        Tag "input" {[ "type" := VStr "submit"; "value" := VStr "Pay" ]} [];
        Tag "select" {[ "name" := VStr "country" ]}
          [Tag "option" ∅ [NavigableString " France "];
           Tag "option" ∅ [NavigableString "Peru"]];
        Tag "button" {[ "class" := VList ["btn"; "primary"] ]}
          [NavigableString " Apply "]];
     Tag "a" {[ "href" := VStr "/x" ]} [NavigableString "Help"]].

(** The coming external call is served: the fault schedule does not
    make it raise. *)
Definition next_call_served {float} (w : VectorStore.world float) : Prop :=
  match VectorStore.faults w with
  | Some _ :: _ => False
  | None :: _ | [] => True
  end.

(** The batches written by [add_documents] for a list of points. *)
Definition batches_of {A} (points : list A) : list (list A) :=
  map (λ i, VectorStore.slice points i (i + 100)%nat)
      (VectorStore.range 0 (length points) 100).

(** The points built from documents and their embeddings when [n]
    identifiers were drawn before. *)
Definition points_of {float} (uuid_of : nat → string) (n : nat)
    (documents : list document) (embeddings : list (list float))
    : list (VectorStore.point float) :=
  imap (λ i de, VectorStore.PointStruct (uuid_of (n + i)%nat) de.2 de.1)
       (zip documents embeddings).

(** A world for experiments: integers stand for floats, the embedding
    of a text is its position in the list, identifiers are numbered,
    and the collection holds one point. *)
Definition toy_encode (texts : list string) : list (list Z) :=
  imap (λ i _, [Z.of_nat i]) texts.
Definition toy_nearest (stored : list (VectorStore.point Z)) (query_vector : list Z)
    (limit : Z) (flt : option VectorStore.query_filter)
    : list (VectorStore.scored_point Z) :=
  take (Z.to_nat limit)
       (map (λ p, VectorStore.ScoredPoint (VectorStore.payload p) 1) stored).
Definition toy_uuid (n : nat) : string := "id-" +:+ pretty n.
Definition toy_name : string := "qa_agent_docs".
Definition toy_doc : document := Document "pay with card" {[ "source" := MStr "spec.md" ]}.
Definition toy_world (schedule : list (option exn)) : VectorStore.world Z :=
  VectorStore.World
    {[ toy_name := VectorStore.Collection 1
                     [VectorStore.PointStruct "id-old" [7] toy_doc] ]}
    schedule [] 0.

(** The kind of a request and the number of items it carries. *)
Definition request_size {float} (rq : VectorStore.request float) : string * nat :=
  match rq with
  | VectorStore.GetCollections => ("list", 0%nat)
  | VectorStore.DeleteCollection _ => ("delete", 0%nat)
  | VectorStore.CreateCollection _ size => ("create", size)
  | VectorStore.Upsert _ batch => ("upsert", length batch)
  | VectorStore.Search _ _ _ flt => ("search", length (default [] flt))
  | VectorStore.Encode texts => ("encode", length texts)
  end.

(** One hundred and one documents, and a schedule under which the
    embedding and the first write are served and the second write
    times out. *)
Definition toy_docs : list document := replicate 101 toy_doc.
(** Two hundred and one documents: three batches. *)
Definition three_batches : list document := replicate 201 toy_doc.
Definition second_write_fails : VectorStore.world Z :=
  toy_world [None; None; Some (IOError "timed out")].
(** The embedding of the query is served, the search that follows
    times out. *)
Definition first_search_fails : VectorStore.world Z :=
  toy_world [None; Some (IOError "timed out")].
Definition first_write_fails : VectorStore.world Z :=
  toy_world [None; Some (IOError "timed out")].

(** A local and a hosted deployment, and behaviours of the HTTP
    transport: it answers at one address only, the collection is
    missing, the connection is refused, the body is not JSON. *)
Definition local_settings : VectorStore.Settings :=
  {| VectorStore.QDRANT_URL := "";
     VectorStore.QDRANT_API_KEY := "";
     VectorStore.QDRANT_HOST := "localhost";
     VectorStore.QDRANT_PORT := 6333;
     VectorStore.QDRANT_COLLECTION_NAME := "qa_agent_docs" |}.
Definition cloud_settings : VectorStore.Settings :=
  {| VectorStore.QDRANT_URL := "https://qa.example.io:6333/";
     VectorStore.QDRANT_API_KEY := "secret";
     VectorStore.QDRANT_HOST := "localhost";
     VectorStore.QDRANT_PORT := 6333;
     VectorStore.QDRANT_COLLECTION_NAME := "qa_agent_docs" |}.
Definition answers_at (expected : string) (url : string)
    (headers : option (list (string * string))) : exc VectorStore.response :=
  if String.eqb url expected then
    Ok (VectorStore.Response 200
          (Ok (VectorStore.JDict
                 {[ "result" := VectorStore.JDict
                                  {[ "points_count" := VectorStore.JInt 3 ]} ]})))
  else Raise (IOError "no route to host").
Definition answers_404 (url : string) (headers : option (list (string * string)))
    : exc VectorStore.response :=
  Ok (VectorStore.Response 404
        (Ok (VectorStore.JDict {[ "status" := VectorStore.JStr "not found" ]}))).
Definition refuses (url : string) (headers : option (list (string * string)))
    : exc VectorStore.response :=
  Raise (IOError "connection refused").
Definition answers_garbage (url : string) (headers : option (list (string * string)))
    : exc VectorStore.response :=
  Ok (VectorStore.Response 200 (Raise (IOError "Expecting value: line 1 column 1"))).
Definition answers_ok (url : string) (headers : option (list (string * string)))
    : exc VectorStore.response :=
  if String.eqb url "http://localhost:6333/collections/qa_agent_docs" then
    Ok (VectorStore.Response 200
          (Ok (VectorStore.JDict
                 {[ "result" := VectorStore.JDict
                                  {[ "points_count" := VectorStore.JInt 12;
                                     "status" := VectorStore.JStr "green" ]} ]})))
  else Raise (IOError "no route to host").

(** The line naming the title, present when the page has a
    [<title>]. *)
Definition title_part (soup : node) : string :=
  match find "title" soup with
  | Some t => "Title: " +:+ get_text "" true t +:+ LF
  | None => ""
  end.

(** The text extracted from a page: title line, the visible text under
    its heading, the delimiter line, the markup as read. *)
Definition html_layout (soup : node) (html_content : string) : string :=
  title_part soup +:+
  LF +:+ "Content:" +:+ LF +:+
  get_text LF true soup +:+ LF +:+
  LF +:+ "--- HTML Structure ---" +:+ LF +:+
  html_content.

(** A page with a title and one paragraph. *)
Definition titled_page : node :=
  Tag "[document]" ∅
    [Tag "html" ∅
       [Tag "head" ∅ [Tag "title" ∅ [NavigableString " Shop "]];
        NavigableString LF;
        Tag "body" ∅ [Tag "p" ∅ [NavigableString "Hello"]]]].

Definition titled_markup : string :=
  "<html><head><title> Shop </title></head>" +:+ LF +:+ "<body><p>Hello</p></body></html>".

(** A page made of one [<input>] without attributes. *)
Definition bare_input : node := Tag "input" ∅ [].
Definition bare_input_page : node := Tag "[document]" ∅ [bare_input].

End Statements.

(** ** More of the Python string library *)

Module PyText.

(** [s.endswith(suffix)] *)
Fixpoint endswith (suffix s : string) : bool :=
  if String.eqb s suffix then true
  else match s with
       | EmptyString => false
       | String _ s' => endswith suffix s'
       end.

(** [s.split(c)] for a one-character separator. *)
Fixpoint split_char (c : ascii) (s : string) : list string :=
  match s with
  | EmptyString => [EmptyString]
  | String a s' =>
      if Ascii.eqb a c then EmptyString :: split_char c s'
      else match split_char c s' with
           | piece :: pieces => String a piece :: pieces
           | [] => [String a EmptyString]
           end
  end.

(** [s[n:]] *)
Fixpoint drop_str (n : nat) (s : string) : string :=
  match n, s with
  | O, _ => s
  | S n', String _ s' => drop_str n' s'
  | S _, EmptyString => EmptyString
  end.

(** [s.partition(sep)] when [sep] occurs in [s]: the text before its
    first occurrence and the text after it. *)
Fixpoint cut (sep s : string) : option (string * string) :=
  if startswith sep s then Some (EmptyString, drop_str (String.length sep) s)
  else match s with
       | EmptyString => None
       | String c s' =>
           match cut sep s' with
           | Some (before, after) => Some (String c before, after)
           | None => None
           end
       end.

(** [s.split(sep)] for a non-empty [sep], cutting at most [fuel]
    times. *)
Fixpoint split_fuel (fuel : nat) (sep s : string) : list string :=
  match fuel with
  | O => [s]
  | S fuel' =>
      match cut sep s with
      | Some (before, after) => before :: split_fuel fuel' sep after
      | None => [s]
      end
  end.

(** [s.split(sep)]: a string is cut fewer times than it has
    characters. *)
Definition split (sep s : string) : list string :=
  split_fuel (String.length s) sep s.

(** [d[key]] on a dictionary. *)
Definition getitem {V} (d : gmap string V) (key : string) : exc V :=
  match d !! key with
  | Some v => Ok v
  | None => Raise (KeyError key)
  end.

End PyText.

(** ** document_processor.py: the other extractors and the pipeline *)

Module Pipeline.
Import Bs4 DocumentProcessor PyText.

Section Processor.
(** [open(file_path, 'r', encoding='utf-8').read()] *)
Variable open_read : string → exc string.
(** [BeautifulSoup(markup, 'html.parser')] *)
Variable html_parser : string → exc node.
(** [RecursiveCharacterTextSplitter.split_text] *)
Variable split_text : string → exc (list string).
(** [markdown.markdown] *)
Variable markdown_markdown : string → exc string.
(** [json.loads], and [json.dumps(data, indent=2)] kept as a function of
    the parsed value of type [J]. *)
Variable J : Type.
Variable json_loads : string → exc J.
Variable json_dumps : J → string.
(** [fitz.open(file_path)]: the texts of the pages, in order. *)
Variable fitz_open : string → exc (list string).

Definition _extract_txt (file_path : string) : exc string :=
  try_except (open_read file_path) (λ e, Raise e).

Definition _extract_markdown (file_path : string) : exc string :=
  try_except
    (md_content ← open_read file_path;
     html ← markdown_markdown md_content;
     soup ← html_parser html;
     mret (get_text LF true soup))
    (λ e, Raise e).

Definition _extract_json (file_path : string) : exc string :=
  try_except
    (f ← open_read file_path;
     data ← json_loads f;
     mret (json_dumps data))
    (λ e, Raise e).

(** [f"\n--- Page {page_num + 1} ---\n"] *)
Definition page_marker (page_num : nat) : string :=
  LF +:+ "--- Page " +:+ pretty (Z.of_nat page_num + 1) +:+ " ---" +:+ LF.

Definition _extract_pdf (file_path : string) : exc string :=
  try_except
    (doc ← fitz_open file_path;
     let text :=
       foldl (λ text '(page_num, page),
                let text := text +:+ page_marker page_num in
                text +:+ page)
             "" (enumerate doc) in
     mret text)
    (λ e, Raise e).

Definition extract_text_from_file (file_path file_type : string) : option string :=
  let body : exc (option string) :=
    if String.eqb file_type "txt" then text ← _extract_txt file_path; mret (Some text)
    else if String.eqb file_type "md" then text ← _extract_markdown file_path; mret (Some text)
    else if String.eqb file_type "json" then text ← _extract_json file_path; mret (Some text)
    else if String.eqb file_type "pdf" then text ← _extract_pdf file_path; mret (Some text)
    else if String.eqb file_type "html"
         then text ← _extract_html open_read html_parser file_path; mret (Some text)
    else mret None in
  match body with
  | Ok r => r
  | Raise _ => None
  end.

(** [if not text:] on an optional string *)
Definition no_text (text : option string) : bool :=
  match text with
  | None | Some EmptyString => true
  | Some (String _ _) => false
  end.

(** Nothing called in the body raises, so the handler of
    [process_document] is never entered. *)
Definition process_document (file_path file_name file_type : string) : list document :=
  let text := extract_text_from_file file_path file_type in
  if no_text text then []
  else
    let metadata : gmap string meta_value :=
      {[ "source" := MStr file_name;
         "file_type" := MStr file_type;
         "file_path" := MStr file_path ]} in
    chunk_text split_text (default "" text) metadata.

(** A file entry is a dictionary; the exception handler of the loop
    reads [file_info['name']] again for its log line. *)
Definition process_multiple_documents (file_list : list (gmap string string))
    : exc (list document) :=
  for_acc (λ all_chunks file_info,
             try_except
               (path ← getitem file_info "path";
                name ← getitem file_info "name";
                type ← getitem file_info "type";
                let chunks := process_document path name type in
                mret (all_chunks ++ chunks))
               (λ e, _ ← getitem file_info "name"; mret all_chunks))
          [] file_list.

End Processor.

End Pipeline.

(** ** selenium_generator.py: recovering the markup, cleaning the answer *)

Module ScriptSynthesis.
Import DocumentProcessor VectorStore PyText.

(** ['\n'] as a character. *)
Definition LF_char : ascii := Ascii.ascii_of_nat 10.

(** The post-processing of the model's answer in
    [generate_selenium_script]: from [cleaned_response = response.strip()]
    to the [join]. *)
Definition clean_response (response : string) : exc string :=
  let cleaned_response := strip response in
  if startswith "```" cleaned_response then
    let lines := split_char LF_char cleaned_response in
    line0 ← first_item lines;
    let lines := if startswith "```" (strip line0) then tail lines else lines in
    let lines :=
      match lines with
      | [] => lines
      | _ :: _ =>
          if startswith "```" (strip (List.last lines ""))
          then removelast lines
          else lines
      end in
    mret (join LF lines)
  else mret cleaned_response.

Definition delimiter : string := "--- HTML Structure ---".

Section Recovery.
Variable float : Type.

(** [metadata.get('file_type') == 'html'] *)
Definition is_html_type (metadata : gmap string meta_value) : bool :=
  match metadata !! "file_type" with
  | Some (MStr s) => String.eqb s "html"
  | Some (MInt _) | None => false
  end.

(** The first loop of [get_html_content]: [Some] is the value it
    returns, [None] means the loop ran to its end. *)
Fixpoint first_html (results : list (hit float)) : option string :=
  match results with
  | [] => None
  | result :: results' =>
      let content := hit_content float result in
      let metadata := hit_metadata float result in
      let returned : option string :=
        if is_html_type metadata || str_in "HTML Structure" content
           || str_in "<!DOCTYPE" content || str_in "<html" content
        then
          if str_in "--- HTML Structure ---" content then
            let parts := split "--- HTML Structure ---" content in
            if (1 <? length parts)%nat
            then Some (strip (nth 1 parts ""))
            else None
          else if str_in "<!DOCTYPE" content || str_in "<html" content
               then Some content
          else None
        else None in
      match returned with
      | Some html_content => Some html_content
      | None => first_html results'
      end
  end.

(** [metadata.get('source', '').endswith('.html')] *)
Definition source_is_html (metadata : gmap string meta_value) : exc bool :=
  match metadata !! "source" with
  | Some (MStr s) => Ok (endswith ".html" s)
  | None => Ok (endswith ".html" "")
  | Some (MInt _) => Raise (AttributeError "'int' object has no attribute 'endswith'")
  end.

(** [get_html_content] after the search. *)
Definition html_from_results (results : list (hit float)) : exc (option string) :=
  match results with
  | [] => mret None
  | _ :: _ =>
      match first_html results with
      | Some html_content => mret (Some html_content)
      | None =>
          html_chunks ← for_acc (λ html_chunks result,
                                   is_html ← source_is_html (hit_metadata float result);
                                   mret (if is_html : bool
                                         then html_chunks ++ [hit_content float result]
                                         else html_chunks))
                                [] results;
          match html_chunks with
          | _ :: _ => mret (Some (join LF html_chunks))
          | [] => mret None
          end
      end
  end.

Variable encode_model : list string → list (list float).
Variable nearest : list (point float) → list float → Z → option query_filter
                   → list (scored_point float).
Variable collection_name : string.

(** [search] always returns a list; the default stands for the
    exhausted budget, which does not happen. *)
Definition get_html_content : M float (option string) :=
  try_M float
    (results ← search float encode_model nearest collection_name
                 "HTML structure checkout form button input select" 20 None;
     lift float (html_from_results (default [] results)))
    (λ _, mret None).

End Recovery.

End ScriptSynthesis.

(** ** vector_store.py: clearing the collection *)

Module Maintenance.
Import VectorStore.

Section Store.
Variable float : Type.
Variable encode_model : list string → list (list float).
Variable collection_name : string.

(** The value returned by the inner [create_collection()] is not looked
    at. *)
Definition clear_collection : M float bool :=
  try_M float
    (delete_collection float collection_name;;
     create_collection float encode_model collection_name false;;
     mret true)
    (λ _, mret false).

End Store.

End Maintenance.

(** ** llm_client.py *)

Module LLMClient.
Import VectorStore.

(** [o[key]] for a string [key]. *)
Definition subscript_key (o : json) (key : string) : exc json :=
  match o with
  | JDict fields =>
      match fields !! key with
      | Some v => Ok v
      | None => Raise (KeyError key)
      end
  | JList _ => Raise (TypeError "list indices must be integers or slices, not str")
  | JStr _ => Raise (TypeError "string indices must be integers")
  | JNull | JBool _ | JInt _ | JFloat _ => Raise (TypeError "object is not subscriptable")
  end.

(** [o[0]]; the keys of a parsed JSON object are strings, so [0] is
    never one of them. *)
Definition subscript_first (o : json) : exc json :=
  match o with
  | JList (x :: _) => Ok x
  | JList [] => Raise (IndexError "list index out of range")
  | JStr (String c _) => Ok (JStr (String c EmptyString))
  | JStr EmptyString => Raise (IndexError "string index out of range")
  | JDict _ => Raise (KeyError "0")
  | JNull | JBool _ | JInt _ | JFloat _ => Raise (TypeError "object is not subscriptable")
  end.

(** [len(o)] *)
Definition py_len (o : json) : exc nat :=
  match o with
  | JStr s => Ok (String.length s)
  | JList items => Ok (length items)
  | JDict fields => Ok (size fields)
  | JNull | JBool _ | JInt _ | JFloat _ => Raise (TypeError "object has no len()")
  end.

(** The attributes set by [__init__]. *)
Record client : Type := Client {
  use_groq : bool;
  api_key : string;
  model : string;
  base_url : string;
}.

(** [if system_prompt:] for an optional string *)
Definition given (system_prompt : option string) : bool :=
  match system_prompt with
  | Some (String _ _) => true
  | Some EmptyString | None => false
  end.

Section Client.
(** [requests.post(url, headers=headers, json=payload, timeout=timeout)] *)
Variable requests_post : string → option (list (string * string)) → json → Z → exc response.
Variable self : client.

(** The temperature, a float, is carried as its literal. *)
Definition _generate_groq (prompt : string) (system_prompt : option string)
    (temperature : string) (max_tokens : Z) : option json :=
  let body : exc (option json) :=
    let messages : list json := [] in
    let messages :=
      if given system_prompt
      then messages ++ [JDict {[ "role" := JStr "system";
                                 "content" := JStr (default "" system_prompt) ]}]
      else messages in
    let messages := messages ++ [JDict {[ "role" := JStr "user"; "content" := JStr prompt ]}] in
    let headers := [("Authorization", "Bearer " +:+ api_key self);
                    ("Content-Type", "application/json")] in
    let payload := JDict {[ "model" := JStr (model self);
                            "messages" := JList messages;
                            "temperature" := JFloat temperature;
                            "max_tokens" := JInt max_tokens ]} in
    response ← requests_post (base_url self) (Some headers) payload 30;
    if status_code response =? 200 then
      result ← json_body response;
      choices ← subscript_key result "choices";
      choice ← subscript_first choices;
      message ← subscript_key choice "message";
      generated_text ← subscript_key message "content";
      _ ← py_len generated_text;
      mret (Some generated_text)
    else mret None in
  match body with
  | Ok r => r
  | Raise _ => None
  end.

Definition _generate_ollama (prompt : string) (system_prompt : option string)
    (temperature : string) (max_tokens : Z) : option json :=
  let body : exc (option json) :=
    let payload : gmap string json :=
      {[ "model" := JStr (model self);
         "prompt" := JStr prompt;
         "stream" := JBool false;
         "options" := JDict {[ "temperature" := JFloat temperature;
                               "num_predict" := JInt max_tokens ]} ]} in
    let payload :=
      if given system_prompt
      then <["system" := JStr (default "" system_prompt)]> payload
      else payload in
    response ← requests_post (base_url self +:+ "/api/generate") None (JDict payload) 120;
    if status_code response =? 200 then
      result ← json_body response;
      generated_text ← dict_get result "response" (JStr "");
      _ ← py_len generated_text;
      mret (Some generated_text)
    else mret None in
  match body with
  | Ok r => r
  | Raise _ => None
  end.

Definition generate (prompt : string) (system_prompt : option string)
    (temperature : string) (max_tokens : Z) : option json :=
  if use_groq self
  then _generate_groq prompt system_prompt temperature max_tokens
  else _generate_ollama prompt system_prompt temperature max_tokens.

End Client.

End LLMClient.

(** ** More notions used to state the properties *)

Module MoreStatements.
Import Bs4 DocumentProcessor VectorStore Statements ScriptSynthesis.

(** What [_extract_html] puts before the delimiter line: the title
    line, the heading, the visible text, and an empty line. *)
Definition text_before_delimiter (soup : node) : string :=
  title_part soup +:+ LF +:+ "Content:" +:+ LF +:+ get_text LF true soup +:+ LF +:+ LF.

(** A chunk carries a marker of markup: the delimiter line, a document
    type declaration, or an opening [html] tag. *)
Definition has_marker (content : string) : bool :=
  str_in delimiter content || str_in "<!DOCTYPE" content || str_in "<html" content.

(** The chunk comes from a file whose name ends in [.html]. *)
Definition from_html_file {float} (r : hit float) : bool :=
  match hit_metadata float r !! "source" with
  | Some (MStr s) => PyText.endswith ".html" s
  | Some (MInt _) | None => false
  end.

(** The source recorded for the chunk, if any, is a string. *)
Definition source_is_text {float} (r : hit float) : Prop :=
  ∀ n, hit_metadata float r !! "source" ≠ Some (MInt n).

(** No external call to come is scheduled to fail. *)
Definition all_served {float} (w : world float) : Prop :=
  Forall (λ f, f = None) (faults w).

(** The world after one more external call: the request is recorded,
    one entry of the schedule is used, the index holds [cs]. *)
Definition after_call {float} (w : world float) (rq : request float)
    (cs : gmap string (collection float)) : world float :=
  World cs (tail (faults w)) (requests w ++ [rq]) (uuids_drawn w).

(** The request is a similarity search. *)
Definition is_search {float} (rq : request float) : bool :=
  match rq with
  | Search _ _ _ _ => true
  | GetCollections | DeleteCollection _ | CreateCollection _ _ | Upsert _ _ | Encode _ => false
  end.

(** A file system for experiments: every file is readable but
    [missing.txt]; the splitter returns the text as one chunk;
    Markdown and JSON texts are passed through; a PDF has two pages. *)
Definition toy_read (path : string) : exc string :=
  if String.eqb path "missing.txt" then Raise (IOError "No such file or directory")
  else Ok ("text of " +:+ path).
Definition toy_parser (markup : string) : exc node := Ok titled_page.
Definition toy_split (text : string) : exc (list string) := Ok [text].
Definition toy_markdown (text : string) : exc string := Ok text.
Definition toy_loads (text : string) : exc string := Ok text.
Definition toy_dumps (data : string) : string := data.
Definition toy_fitz (path : string) : exc (list string) := Ok ["one"; "two"].

(** A file entry as the interface builds it. *)
Definition entry (path name type : string) : gmap string string :=
  {[ "path" := path; "name" := name; "type" := type ]}.

(** Retrieved chunks: a piece of prose, the text extracted from
    [titled_markup], a bare document, a piece of a page. *)
Definition prose_hit : hit Z :=
  Hit "Discount codes are case sensitive." {[ "source" := MStr "spec.md" ]} 3.
Definition extracted_hit : hit Z :=
  Hit (html_layout titled_page titled_markup)
      {[ "source" := MStr "shop.html"; "file_type" := MStr "html" ]} 2.
Definition raw_hit : hit Z :=
  Hit "<html><body>raw</body></html>" {[ "source" := MStr "raw.html" ]} 1.
Definition piece_hit : hit Z :=
  Hit "<p>Pay</p>" {[ "source" := MStr "shop.html"; "file_type" := MStr "html" ]} 1.

(** Schedules: the deletion is served and the listing after it fails;
    the first call fails. *)
Definition listing_fails : world Z :=
  toy_world [None; Some (IOError "timed out")].
Definition unreachable : world Z :=
  toy_world [Some (IOError "connection refused")].

(** A hosted and a local client, and transports for experiments. *)
Definition hosted : LLMClient.client :=
  LLMClient.Client true "key" "llama-3.1-8b-instant"
    "https://api.groq.com/openai/v1/chat/completions".
Definition local : LLMClient.client :=
  LLMClient.Client false "" "llama2" "http://localhost:11434".
Definition answers_choice (url : string) (headers : option (list (string * string)))
    (payload : json) (timeout : Z) : exc response :=
  Ok (Response 200
        (Ok (JDict {[ "choices" :=
                        JList [JDict {[ "message" :=
                                          JDict {[ "role" := JStr "assistant";
                                                   "content" := JStr "print(1)" ]} ]}] ]}))).
Definition answers_done (url : string) (headers : option (list (string * string)))
    (payload : json) (timeout : Z) : exc response :=
  Ok (Response 200 (Ok (JDict {[ "done" := JBool true ]}))).

(** The request each backend posts, read off [_generate_groq] and
    [_generate_ollama]: the payload, and the outcome of the call made
    with it (address, headers, payload, timeout). *)
Definition groq_payload (self : LLMClient.client) (prompt : string)
    (system_prompt : option string) (temperature : string) (max_tokens : Z) : json :=
  JDict {[ "model" := JStr (LLMClient.model self);
           "messages" :=
             JList ((if LLMClient.given system_prompt
                     then [JDict {[ "role" := JStr "system";
                                    "content" := JStr (default "" system_prompt) ]}]
                     else [])
                    ++ [JDict {[ "role" := JStr "user"; "content" := JStr prompt ]}]);
           "temperature" := JFloat temperature;
           "max_tokens" := JInt max_tokens ]}.
Definition ollama_payload (self : LLMClient.client) (prompt : string)
    (system_prompt : option string) (temperature : string) (max_tokens : Z) : json :=
  let payload : gmap string json :=
    {[ "model" := JStr (LLMClient.model self);
       "prompt" := JStr prompt;
       "stream" := JBool false;
       "options" := JDict {[ "temperature" := JFloat temperature;
                             "num_predict" := JInt max_tokens ]} ]} in
  JDict (if LLMClient.given system_prompt
         then <["system" := JStr (default "" system_prompt)]> payload
         else payload).
Definition posted
    (requests_post : string → option (list (string * string)) → json → Z → exc response)
    (self : LLMClient.client) (prompt : string) (system_prompt : option string)
    (temperature : string) (max_tokens : Z) : exc response :=
  if LLMClient.use_groq self
  then requests_post (LLMClient.base_url self)
         (Some [("Authorization", "Bearer " +:+ LLMClient.api_key self);
                ("Content-Type", "application/json")])
         (groq_payload self prompt system_prompt temperature max_tokens) 30
  else requests_post (LLMClient.base_url self +:+ "/api/generate") None
         (ollama_payload self prompt system_prompt temperature max_tokens) 120.

(** A transport that answers as [answers_choice] at one address and
    with status 503 and no JSON body anywhere else. *)
Definition answers_choice_at (address url : string)
    (headers : option (list (string * string))) (payload : json) (timeout : Z)
    : exc response :=
  if String.eqb url address then answers_choice url headers payload timeout
  else Ok (Response 503 (Raise (ValidationError "Expecting value"))).

End MoreStatements.

(** * Properties *)

(** ** Strings *)

Module PyFacts.

Lemma append_cons (c : ascii) (p q : string) :
  String c p +:+ q = String c (p +:+ q).
Proof. reflexivity. Qed.

Lemma append_nil (q : string) : "" +:+ q = q.
Proof. reflexivity. Qed.

Lemma bind_Ok {A B} (m : exc A) (f : A → exc B) (b : B) :
  m ≫= f = Ok b → ∃ a, m = Ok a ∧ f a = Ok b.
Proof. destruct m as [a|e]; [by exists a | done]. Qed.

Lemma append_assoc (a b c : string) : (a +:+ b) +:+ c = a +:+ b +:+ c.
Proof. induction a as [|x a IH]; [done|]. by rewrite !append_cons, IH. Qed.

Lemma startswith_spec (p s : string) :
  startswith p s = true ↔ ∃ post, s = p +:+ post.
Proof.
  revert s; induction p as [|a p IH]; intros s; simpl.
  - split; [intros _; by exists s | done].
  - destruct s as [|b s].
    + split; [done | intros [post Hpost]; discriminate].
    + destruct (Ascii.eqb_spec a b) as [->|Hne].
      * rewrite IH. split; intros [post Hpost]; exists post;
          rewrite append_cons in *; congruence.
      * split; [done | intros [post Hpost]; rewrite append_cons in Hpost; congruence].
Qed.

Lemma str_in_here (needle hay : string) :
  startswith needle hay = true → str_in needle hay = true.
Proof. intros H. destruct hay; simpl; by rewrite H. Qed.

Lemma str_in_later (needle : string) (c : ascii) (hay : string) :
  str_in needle hay = true → str_in needle (String c hay) = true.
Proof. intros H. simpl. rewrite H. by destruct (startswith _ _). Qed.

(** The substring test decides occurrence. *)
Lemma str_in_occurs (needle hay : string) :
  str_in needle hay = true ↔ occurs needle hay.
Proof.
  split.
  - induction hay as [|c hay IH]; simpl.
    + destruct (startswith needle "") eqn:Hs; [|done].
      intros _. apply startswith_spec in Hs as [post ->]. by exists "", post.
    + destruct (startswith needle (String c hay)) eqn:Hs.
      * intros _. apply startswith_spec in Hs as [post ->]. by exists "", post.
      * intros H. destruct (IH H) as (pre & post & ->). by exists (String c pre), post.
  - intros (pre & post & ->). induction pre as [|c pre IH]; simpl.
    + apply str_in_here, startswith_spec. by exists post.
    + by apply str_in_later.
Qed.

Lemma str_in_absent (needle hay : string) :
  str_in needle hay = false ↔ ¬ occurs needle hay.
Proof. rewrite <- str_in_occurs. by destruct (str_in needle hay). Qed.

End PyFacts.

(** ** Script validation *)

Module ValidateScriptFacts.
Import SeleniumScriptGenerator PyFacts.

(** On a string the validation never raises; the report is computed
    from five substring tests. *)
Lemma validate_script_str (script : string) :
  ∃ ws,
    validate_script (PyStr script) =
      Report (str_in "find_element" script || str_in "click" script
              || str_in "send_keys" script)
             (Some (ws ++ if negb (str_in "try:" script) || negb (str_in "except" script)
                          then ["Missing error handling"] else []))
             (if str_in "find_element" script || str_in "click" script
                 || str_in "send_keys" script
              then [] else ["No Selenium methods found"]).
Proof.
  unfold validate_script, validate_script_body, required_imports, required_methods,
    py_not_in, py_in.
  cbn [for_acc py_any mbind mret exc_bind exc_ret].
  eexists.
  destruct (str_in "find_element" script), (str_in "click" script),
    (str_in "send_keys" script), (str_in "try:" script), (str_in "except" script);
    cbn; rewrite ?app_nil_r; reflexivity.
Qed.

(** C1.  For a script given as a string: the report has [valid = false]
    and a non-empty error list exactly when none of ["find_element"],
    ["click"], ["send_keys"] occurs in it; and when one of them occurs
    but ["try:"] or ["except"] does not, the report has [valid = true]
    and carries the warning about missing error handling. *)
Theorem validate_script_methods_and_handling (script : string) :
  let r := validate_script (PyStr script) in
  ((valid r = false ∧ errors r ≠ []) ↔
     (¬ occurs "find_element" script ∧ ¬ occurs "click" script
      ∧ ¬ occurs "send_keys" script))
  ∧ ((occurs "find_element" script ∨ occurs "click" script ∨ occurs "send_keys" script) →
     (¬ occurs "try:" script ∨ ¬ occurs "except" script) →
     valid r = true
     ∧ ∃ ws, warnings r = Some ws ∧ "Missing error handling" ∈ ws).
Proof.
  destruct (validate_script_str script) as [ws ->]. cbn zeta.
  rewrite <- !str_in_absent, <- !str_in_occurs. cbn [valid errors warnings].
  destruct (str_in "find_element" script), (str_in "click" script),
    (str_in "send_keys" script); cbn [orb].
  all: split; [ split; [intros [? ?]; try done | intros (? & ? & ?); try done] | ].
  all: try (intros [?|[?|?]]; done).
  all: intros _ Hh; split; [done|]; eexists; split; [done|].
  all: apply elem_of_app; right.
  all: destruct (str_in "try:" script), (str_in "except" script);
    cbn; destruct Hh; try done; apply list_elem_of_here.
Qed.

(** C10.  Whatever object is passed, on the normal path and on the path
    through the exception handler alike, the report has [valid = false]
    exactly when its error list is non-empty. *)
Theorem validate_script_valid_iff_no_errors (script : pyobj) :
  valid (validate_script script) = false ↔ errors (validate_script script) ≠ [].
Proof.
  unfold validate_script.
  destruct (validate_script_body script) as [r|e] eqn:Hbody; [|done].
  unfold validate_script_body in Hbody.
  apply bind_Ok in Hbody as (ws & _ & Hbody).
  apply bind_Ok in Hbody as (has_methods & _ & Hbody).
  apply bind_Ok in Hbody as (no_try & _ & Hbody).
  apply bind_Ok in Hbody as (no_handling & _ & Hbody).
  injection Hbody as <-. by destruct has_methods.
Qed.

Lemma validate_script_methods_and_handling_witness :
  valid (validate_script (PyStr "el.click()")) = true
  ∧ ∃ ws, warnings (validate_script (PyStr "el.click()")) = Some ws
          ∧ "Missing error handling" ∈ ws.
Proof.
  apply (proj2 (validate_script_methods_and_handling "el.click()")).
  - right; left. by exists "el.", "()".
  - left. apply str_in_absent. reflexivity.
Defined.

(** The handler is reached when the argument is not a string. *)
Example validate_script_none :
  validate_script PyNone =
    Report false None ["argument of type 'NoneType' is not iterable"].
Proof. reflexivity. Qed.

Example validate_script_empty :
  validate_script (PyStr "") =
    Report false
      (Some ["Missing import: selenium"; "Missing import: webdriver";
             "Missing import: WebDriverWait"; "Missing error handling"])
      ["No Selenium methods found"].
Proof. reflexivity. Qed.

End ValidateScriptFacts.

(** ** Chunking *)

Module ChunkFacts.
Import DocumentProcessor Statements.

(** A loop that appends one item per element builds the mapped list. *)
Lemma foldl_append_map {A B} (g : list B → A → list B) (f : A → B)
    (xs : list A) (acc : list B) :
  (∀ out x, g out x = out ++ [f x]) →
  foldl g acc xs = acc ++ map f xs.
Proof.
  intros Hg. revert acc; induction xs as [|x xs IH]; intros acc; simpl.
  - by rewrite app_nil_r.
  - by rewrite IH, Hg, <- app_assoc.
Qed.

Section Chunks.
Variable split_text : string → exc (list string).

Lemma chunk_text_map (text : string) (md : gmap string meta_value) :
  chunk_text split_text text md =
    match split_text text with
    | Ok chunks => map (doc_of md (length chunks)) (enumerate chunks)
    | Raise _ => []
    end.
Proof.
  unfold chunk_text. destruct (split_text text) as [chunks|e]; cbn; [|done].
  by rewrite (foldl_append_map _ (doc_of md (length chunks))) by by intros out [i c].
Qed.

Lemma enumerate_length {A} (xs : list A) : length (enumerate xs) = length xs.
Proof. unfold enumerate. rewrite length_zip, length_seq. lia. Qed.

Lemma chunk_ids_from (md : gmap string meta_value) (n k : nat) (chunks : list string) :
  map (λ d, metadata d !! "chunk_id") (map (doc_of md n) (zip (seq k (length chunks)) chunks))
  = map (λ i, Some (MInt (Z.of_nat i))) (seq k (length chunks)).
Proof.
  revert k; induction chunks as [|c chunks IH]; intros k; simpl; [done|].
  rewrite IH. f_equal.
  rewrite lookup_insert_ne by done. by rewrite lookup_insert_eq.
Qed.

(** C2.  The chunks returned for a text carry the identifiers
    0, 1, ..., in this order, up to the number of chunks returned,
    and each of them records that number as [total_chunks]; the
    metadata passed in cannot change either field. *)
Theorem chunk_text_ids_contiguous (text : string) (md : gmap string meta_value) :
  let docs := chunk_text split_text text md in
  map (λ d, metadata d !! "chunk_id") docs
    = map (λ i, Some (MInt (Z.of_nat i))) (seq 0 (length docs))
  ∧ Forall (λ d, metadata d !! "total_chunks" = Some (MInt (Z.of_nat (length docs)))) docs.
Proof.
  cbn zeta. rewrite chunk_text_map.
  destruct (split_text text) as [chunks|e]; [|by split].
  rewrite length_map, enumerate_length. split.
  - apply chunk_ids_from.
  - apply Forall_map, Forall_forall. intros ic _. cbn. by rewrite lookup_insert_eq.
Qed.

End Chunks.

(** Three chunks, for metadata that already names a chunk. *)
Example chunk_text_three :
  map (λ d, (content d, metadata d !! "chunk_id", metadata d !! "total_chunks"))
      (chunk_text (λ _, Ok ["a"; "b"; "c"]) "a b c" {[ "chunk_id" := MInt 7 ]})
  = [("a", Some (MInt 0), Some (MInt 3)); ("b", Some (MInt 1), Some (MInt 3));
     ("c", Some (MInt 2), Some (MInt 3))].
Proof. vm_compute. reflexivity. Qed.

Example chunk_text_failure :
  chunk_text (λ _, Raise (TypeError "expected string")) "a" ∅ = [].
Proof. reflexivity. Qed.

End ChunkFacts.

(** ** The inventory of interactive elements *)

Module HtmlStructureFacts.
Import Bs4 SeleniumScriptGenerator Statements.

Lemma collect_from (skip : node → bool) (describe : node → descriptor)
    (xs : list node) (acc : list descriptor) :
  foldl (λ out x, if skip x then out else out ++ [describe x]) acc xs
  = acc ++ map describe (List.filter (λ x, negb (skip x)) xs).
Proof.
  revert acc; induction xs as [|x xs IH]; intros acc; simpl.
  - by rewrite app_nil_r.
  - rewrite IH. destruct (skip x); simpl; [done|]. by rewrite <- app_assoc.
Qed.

Lemma collect_map_filter (skip : node → bool) (describe : node → descriptor)
    (xs : list node) :
  collect skip describe xs = map describe (List.filter (λ x, negb (skip x)) xs).
Proof. unfold collect. by rewrite collect_from. Qed.

Lemma filter_all {A} (xs : list A) : List.filter (λ _, negb false) xs = xs.
Proof. induction xs as [|x xs IH]; [done|]. cbn. f_equal. exact IH. Qed.

Lemma collect_map (describe : node → descriptor) (xs : list node) :
  collect (λ _, false) describe xs = map describe xs.
Proof. by rewrite collect_map_filter, filter_all. Qed.

(** Two boolean filters in a row, read as one filter by a decidable
    property. *)
Lemma filter_twice_prop {A} (f g : A → bool) (P : A → Prop) `{!∀ x, Decision (P x)}
    (xs : list A) :
  (∀ x, f x && g x = true ↔ P x) →
  List.filter g (List.filter f xs) = filter P xs.
Proof.
  intros Hfg. induction xs as [|x xs IH]; simpl; [done|].
  rewrite filter_cons. specialize (Hfg x).
  destruct (f x); simpl; [destruct (g x); simpl|]; rewrite IH.
  all: destruct (decide (P x)) as [HP|HP]; try done.
  all: try (apply Hfg in HP; done).
  all: exfalso; apply HP, Hfg; done.
Qed.

(** The two tests of the button loop select the button-like elements. *)
Lemma kept_iff_button_like (e : node) :
  existsb (λ nm, name_is nm e) ["button"; "input"] && negb (not_a_button e) = true
  ↔ button_like e.
Proof.
  unfold button_like, not_a_button, name_is, value_in, get.
  destruct e as [nm attrs cs|s|s]; cbn [name attrs_of existsb].
  2,3: split; [done | intros [?|[? _]]; done].
  destruct (String.eqb_spec nm "button") as [Hb|Hb];
    destruct (String.eqb_spec nm "input") as [Hi|Hi]; cbn.
  - congruence.
  - split; [left; congruence | done].
  - subst nm. destruct (attrs !! "type") as [[t|l|]|]; cbn.
    2-4: split; [done | intros [?|[_ [?|?]]]; done].
    destruct (String.eqb_spec t "button") as [->|Htb]; cbn.
    { split; [intros _; right; split; [done | by left] | done]. }
    destruct (String.eqb_spec t "submit") as [->|Hts]; cbn.
    { split; [intros _; right; split; [done | by right] | done]. }
    split; [done | intros [?|[_ [?|?]]]; congruence].
  - split; [done | intros [?|[? _]]; congruence].
Qed.

Section Extract.
Variable html_parser : string → exc node.

Lemma structure_lists (html : string) (soup : node) :
  html_parser html = Ok soup →
  let s := extract_html_structure html_parser html in
  s !! "forms" = Some (map form_descriptor (find_all ["form"] soup))
  ∧ s !! "buttons" = Some (map button_descriptor
                             (List.filter (λ e, negb (not_a_button e))
                                (find_all ["button"; "input"] soup)))
  ∧ s !! "inputs" = Some (map input_descriptor (find_all ["input"] soup))
  ∧ s !! "selects" = Some (map select_descriptor (find_all ["select"] soup))
  ∧ s !! "links" = Some (map link_descriptor (find_all ["a"] soup)).
Proof.
  intros Hparse. unfold extract_html_structure. rewrite Hparse. cbn zeta.
  rewrite !collect_map, collect_map_filter.
  repeat split; by simplify_map_eq.
Qed.

(** C3.  When the markup parses, the buttons listed are the
    descriptors, in document order, of exactly the elements that are
    a [<button>] or an [<input>] whose [type] is ["button"] or
    ["submit"]; an [<input>] of another type, or without a [type],
    is not among the elements listed. *)
Theorem buttons_are_button_like (html : string) (soup : node) :
  html_parser html = Ok soup →
  extract_html_structure html_parser html !! "buttons"
    = Some (map button_descriptor (filter button_like (descendants soup)))
  ∧ ∀ e, name e = Some "input" →
         attrs_of e !! "type" ≠ Some (VStr "button") →
         attrs_of e !! "type" ≠ Some (VStr "submit") →
         e ∉ filter button_like (descendants soup).
Proof.
  intros Hparse. split.
  - destruct (structure_lists html soup Hparse) as (_ & -> & _).
    unfold find_all.
    by rewrite (filter_twice_prop _ _ button_like) by apply kept_iff_button_like.
  - intros e Hname Hb Hs [[Hn|(_ & [?|?])] _]%list_elem_of_filter; congruence.
Qed.

End Extract.

Create HintDb descriptors.
#[local] Hint Unfold form_descriptor button_descriptor input_descriptor
  select_descriptor link_descriptor : descriptors.

(** Reading a field of a descriptor literal. *)
Ltac read_field :=
  repeat first [ rewrite lookup_insert_eq | rewrite lookup_insert_ne by done ].

Ltac default_field :=
  let e := fresh "e" in
  let H := fresh "H" in
  intros e H; autounfold with descriptors;
  unfold get; destruct e; cbn [attrs_of] in H; rewrite ?H; by read_field.

Section Defaults.
Variable html_parser : string → exc node.

(** C4, as the code has it.  When the markup parses, each of the five
    lists holds one descriptor per element found, and no lookup
    fails: a descriptor field read from an attribute the element
    lacks is the empty string, the empty list for [class], with one
    exception, the [type] of an input descriptor, which is
    ["text"]. *)
Theorem absent_attributes_default (html : string) (soup : node) :
  html_parser html = Ok soup →
  let s := extract_html_structure html_parser html in
  (s !! "forms" = Some (map form_descriptor (find_all ["form"] soup))
   ∧ s !! "buttons" = Some (map button_descriptor
                              (List.filter (λ e, negb (not_a_button e))
                                 (find_all ["button"; "input"] soup)))
   ∧ s !! "inputs" = Some (map input_descriptor (find_all ["input"] soup))
   ∧ s !! "selects" = Some (map select_descriptor (find_all ["select"] soup))
   ∧ s !! "links" = Some (map link_descriptor (find_all ["a"] soup)))
  ∧ (Forall (λ k, defaults_to form_descriptor k k (VStr "")) ["id"; "name"; "action"]
     ∧ defaults_to form_descriptor "class" "class" (VList []))
  ∧ (Forall (λ k, defaults_to button_descriptor k k (VStr "")) ["id"; "name"; "type"]
     ∧ defaults_to button_descriptor "class" "class" (VList [])
     ∧ ∀ e, name_is "button" e = false → attrs_of e !! "value" = None →
            button_descriptor e !! "text" = Some (VStr ""))
  ∧ (Forall (λ k, defaults_to input_descriptor k k (VStr "")) ["id"; "name"; "placeholder"]
     ∧ defaults_to input_descriptor "class" "class" (VList [])
     ∧ defaults_to input_descriptor "type" "type" (VStr "text"))
  ∧ (Forall (λ k, defaults_to select_descriptor k k (VStr "")) ["id"; "name"]
     ∧ defaults_to select_descriptor "class" "class" (VList []))
  ∧ (Forall (λ k, defaults_to link_descriptor k k (VStr "")) ["id"; "href"]
     ∧ defaults_to link_descriptor "class" "class" (VList [])).
Proof.
  intros Hparse. split; [by apply structure_lists|].
  repeat split; repeat apply Forall_cons_2; try apply Forall_nil_2.
  all: try default_field.
  intros e Hname H. unfold button_descriptor, get. rewrite Hname.
  destruct e; cbn [attrs_of] in H; rewrite ?H; by read_field.
Qed.

End Defaults.

Lemma absent_attributes_default_witness :
  extract_html_structure (λ _, Ok bare_input_page) "<input>" !! "inputs"
    = Some (map input_descriptor (find_all ["input"] bare_input_page))
  ∧ defaults_to input_descriptor "type" "type" (VStr "text")
  ∧ defaults_to input_descriptor "placeholder" "placeholder" (VStr "").
Proof.
  destruct (absent_attributes_default (λ _, Ok bare_input_page) "<input>"
              bare_input_page eq_refl)
    as ((_ & _ & Hinputs & _) & _ & _ & (Hstr & _ & Htype) & _).
  split; [exact Hinputs|]. split; [exact Htype|].
  by apply Forall_cons_1 in Hstr as [_ [_ [Hp _]%Forall_cons_1]%Forall_cons_1].
Defined.

(** C4 as stated fails: the [<input>] of [bare_input_page] has no
    [type] attribute, and the [type] of its descriptor is not empty. *)
Lemma input_type_defaults_to_text :
  attrs_of bare_input !! "type" = None
  ∧ extract_html_structure (λ _, Ok bare_input_page) "<input>" !! "inputs"
      = Some [input_descriptor bare_input]
  ∧ input_descriptor bare_input !! "type" = Some (VStr "text")
  ∧ ¬ defaults_to input_descriptor "type" "type" (VStr "").
Proof.
  split; [done|]. split.
  { by destruct (structure_lists (λ _, Ok bare_input_page) "<input>" bare_input_page
                   eq_refl) as (_ & _ & -> & _). }
  assert (input_descriptor bare_input !! "type" = Some (VStr "text")) as Htype.
  { unfold input_descriptor. by read_field. }
  split; [exact Htype|].
  intros Hclaim. specialize (Hclaim bare_input eq_refl). congruence.
Qed.

(** When the parser raises, the result is the empty dictionary. *)
Lemma extract_html_structure_parse_error (html_parser : string → exc node)
    (html : string) (e : exn) :
  html_parser html = Raise e → extract_html_structure html_parser html = ∅.
Proof. intros Hparse. unfold extract_html_structure. by rewrite Hparse. Qed.

(** The inventory of [sample_page]: the submit input and the button are
    the two buttons, the text input is not one. *)
Example sample_page_inventory :
  let s := extract_html_structure (λ _, Ok sample_page) "<form>...</form>" in
  (length <$> s !! "forms", length <$> s !! "buttons", length <$> s !! "inputs",
   length <$> s !! "selects", length <$> s !! "links")
    = (Some 1, Some 2, Some 2, Some 1, Some 1)%nat
  ∧ map (λ d, (d !! "type", d !! "text")) <$> s !! "buttons"
    = Some [(Some (VStr "submit"), Some (VStr "Pay")); (Some (VStr ""), Some (VStr "Apply"))]
  ∧ map (λ d, (d !! "type", d !! "name")) <$> s !! "inputs"
    = Some [(Some (VStr "text"), Some (VStr "email")); (Some (VStr "submit"), Some (VStr ""))]
  ∧ map (λ d, d !! "options") <$> s !! "selects" = Some [Some (VList ["France"; "Peru"])]
  ∧ map (λ d, (d !! "href", d !! "text")) <$> s !! "links"
    = Some [(Some (VStr "/x"), Some (VStr "Help"))].
Proof. vm_compute. repeat split; reflexivity. Qed.

Lemma buttons_are_button_like_witness :
  extract_html_structure (λ _, Ok sample_page) "<form>...</form>" !! "buttons"
    = Some (map button_descriptor (filter button_like (descendants sample_page)))
  ∧ ∀ e, name e = Some "input" →
         attrs_of e !! "type" ≠ Some (VStr "button") →
         attrs_of e !! "type" ≠ Some (VStr "submit") →
         e ∉ filter button_like (descendants sample_page).
Proof. apply (buttons_are_button_like (λ _, Ok sample_page) "<form>...</form>"). reflexivity. Defined.

End HtmlStructureFacts.

(** ** Text extracted from a page *)

Module ExtractHtmlFacts.
Import Bs4 DocumentProcessor Statements PyFacts.

Section ExtractHtml.
Variable open_read : string → exc string.
Variable html_parser : string → exc node.

(** C5.  When the file is read and its content parses, the extractor
    returns, in this order: the line ["Title: ..."] if the page has a
    [<title>], the heading ["Content:"] and the visible text of the
    page, the line ["--- HTML Structure ---"], and the markup
    exactly as it was read. *)
Theorem extract_html_layout (file_path html_content : string) (soup : node) :
  open_read file_path = Ok html_content →
  html_parser html_content = Ok soup →
  _extract_html open_read html_parser file_path = Ok (html_layout soup html_content).
Proof.
  intros Hread Hparse. unfold _extract_html, html_layout, title_part.
  rewrite Hread. cbn [mbind exc_bind]. rewrite Hparse. cbn [mbind exc_bind].
  destruct (find "title" soup) as [t|]; cbn [app join mret exc_ret try_except].
  - by rewrite !append_assoc.
  - by rewrite !append_assoc.
Qed.

(** A read error is passed on to the caller. *)
Lemma extract_html_read_error (file_path : string) (e : exn) :
  open_read file_path = Raise e →
  _extract_html open_read html_parser file_path = Raise e.
Proof. intros Hread. unfold _extract_html. by rewrite Hread. Qed.

End ExtractHtml.

Lemma extract_html_layout_witness :
  _extract_html (λ _, Ok titled_markup) (λ _, Ok titled_page) "shop.html"
  = Ok (html_layout titled_page titled_markup).
Proof.
  apply (extract_html_layout (λ _, Ok titled_markup) (λ _, Ok titled_page)
           "shop.html" titled_markup titled_page); reflexivity.
Defined.

Example titled_page_text :
  html_layout titled_page titled_markup =
    "Title: Shop" +:+ LF +:+
    LF +:+ "Content:" +:+ LF +:+
    "Shop" +:+ LF +:+ "Hello" +:+ LF +:+
    LF +:+ "--- HTML Structure ---" +:+ LF +:+
    titled_markup.
Proof. vm_compute. reflexivity. Qed.

End ExtractHtmlFacts.

(** ** The vector index *)


Module VectorStoreFacts.
Import DocumentProcessor VectorStore Statements.

(** *** Batches of one hundred *)

Lemma hundreds_cover (n : nat) : (n ≤ (n + 99) / 100 * 100)%nat.
Proof.
  pose proof (Nat.div_mod_eq (n + 99) 100) as Hdm.
  pose proof (Nat.mod_upper_bound (n + 99) 100). lia.
Qed.

Lemma hundreds_tight (n k : nat) : (k < (n + 99) / 100 → k * 100 < n)%nat.
Proof.
  pose proof (Nat.div_mod_eq (n + 99) 100) as Hdm.
  pose proof (Nat.mod_upper_bound (n + 99) 100). lia.
Qed.

Lemma batches_of_eq {A} (points : list A) :
  batches_of points
  = map (λ k, take 100 (drop (k * 100) points)) (seq 0 ((length points + 99) / 100)).
Proof.
  unfold batches_of, range, slice. rewrite map_map.
  replace (length points - 0 + 100 - 1)%nat with (length points + 99)%nat by lia.
  apply map_ext. intros k. cbn [Nat.add]. f_equal. lia.
Qed.

Lemma hundreds_concat {A} (m : nat) (l : list A) :
  (length l ≤ m * 100)%nat →
  concat (map (λ k, take 100 (drop (k * 100) l)) (seq 0 m)) = l.
Proof.
  revert l; induction m as [|m IH]; intros l Hlen.
  - destruct l; [done | cbn in Hlen; lia].
  - cbn [seq map concat]. rewrite <- seq_shift, map_map.
    transitivity (take 100 l ++ drop 100 l); [|apply take_drop].
    f_equal. rewrite <- (IH (drop 100 l)) at 1 by (rewrite length_drop; lia).
    f_equal. apply map_ext. intros k. rewrite drop_drop. do 2 f_equal; lia.
Qed.

(** The batches hold between one and one hundred points each, and put
    end to end they are the list of points. *)
Lemma batches_of_sizes {A} (points : list A) :
  Forall (λ b, 0 < length b ≤ 100)%nat (batches_of points)
  ∧ concat (batches_of points) = points.
Proof.
  rewrite batches_of_eq. split.
  - apply Forall_map, Forall_forall. intros k Hk%elem_of_seq.
    cbn. rewrite length_take, length_drop.
    pose proof (hundreds_tight (length points) k). lia.
  - apply hundreds_concat, hundreds_cover.
Qed.

Section Store.
Context {float : Type}.
Variable encode_model : list string → list (list float).
Variable nearest : list (point float) → list float → Z → option query_filter
                   → list (scored_point float).
Variable uuid_of : nat → string.
Variable collection_name : string.

Lemma listed (cs : gmap string (collection float)) (c : collection float) :
  cs !! collection_name = Some c →
  existsb (λ col, String.eqb col collection_name) (map_to_list cs).*1 = true.
Proof.
  intros Hc. apply existsb_exists. exists collection_name. split.
  - apply list_elem_of_In, list_elem_of_fmap. exists (collection_name, c).
    split; [done|]. by apply elem_of_map_to_list.
  - apply String.eqb_refl.
Qed.

(** What [create_collection(False)] does to a world that holds the
    collection. *)
Lemma create_collection_existing (w : world float) (c : collection float) :
  collections w !! collection_name = Some c →
  create_collection float encode_model collection_name false w =
    (match faults w with Some _ :: _ => Ok false | _ => Ok true end,
     World (collections w) (tail (faults w)) (requests w ++ [GetCollections])
           (uuids_drawn w)).
Proof.
  intros Hc. unfold create_collection, try_M, get_collections, external.
  unfold mbind, M_bind, mret, M_ret. cbn beta.
  destruct (faults w) as [|[e|] fs]; cbn; rewrite ?(listed _ _ Hc); cbn; done.
Qed.

(** C9.  In a world that holds the collection, [create_collection]
    without [force_recreate] issues one request, the listing of the
    collections: nothing is deleted or created, every collection
    with its points is as before, and the call reports success when
    the listing is served.  A second call finds the same world and
    does the same. *)
Theorem create_collection_idempotent (w : world float) (c : collection float) :
  collections w !! collection_name = Some c →
  next_call_served w →
  ∃ w1,
    create_collection float encode_model collection_name false w = (Ok true, w1)
    ∧ collections w1 = collections w
    ∧ requests w1 = requests w ++ [GetCollections]
    ∧ ∀ r2 w2,
        create_collection float encode_model collection_name false w1 = (r2, w2) →
        collections w2 = collections w
        ∧ requests w2 = requests w ++ [GetCollections; GetCollections]
        ∧ (next_call_served w1 → r2 = Ok true).
Proof.
  intros Hc Hserved. rewrite (create_collection_existing w c Hc).
  eexists. split.
  { f_equal. unfold next_call_served in Hserved. by destruct (faults w) as [|[e|] fs]. }
  cbn [collections requests]. split; [done|]. split; [done|].
  intros r2 w2. rewrite (create_collection_existing _ c) by done.
  cbn [collections requests faults uuids_drawn]. intros [= <- <-].
  cbn [collections requests]. split; [done|]. split.
  - by rewrite <- app_assoc.
  - unfold next_call_served. cbn [faults].
    by destruct (tail (faults w)) as [|[e|] fs].
Qed.

(** *** Adding documents *)

Lemma bind_run {A B} (m : M float A) (f : A → M float B) (w : world float) :
  (m ≫= f) w = match m w with
               | (Ok a, w') => f a w'
               | (Raise e, w') => (Raise e, w')
               end.
Proof. reflexivity. Qed.

Lemma for_each_app {A} (xs ys : list A) (body : A → M float unit) (w : world float) :
  for_each float (xs ++ ys) body w =
    match for_each float xs body w with
    | (Ok _, w') => for_each float ys body w'
    | (Raise e, w') => (Raise e, w')
    end.
Proof.
  revert w; induction xs as [|x xs IH]; intros w; [done|].
  cbn [app for_each]. rewrite !bind_run.
  destruct (body x w) as [[[]|e] w']; [apply IH | done].
Qed.

Lemma for_each_map {A B} (f : A → B) (xs : list A) (body : B → M float unit)
    (w : world float) :
  for_each float (map f xs) body w = for_each float xs (λ x, body (f x)) w.
Proof.
  revert w; induction xs as [|x xs IH]; intros w; [done|].
  cbn [map for_each]. rewrite !bind_run.
  destruct (body (f x) w) as [[[]|e] w']; [apply IH | done].
Qed.

(** A loop either runs through, or stops at its first failing
    iteration. *)
Lemma for_each_cases {A} (xs : list A) (body : A → M float unit) (w : world float) :
  (∃ wn, for_each float xs body w = (Ok tt, wn))
  ∨ (∃ pre x post e wk wf,
       xs = pre ++ x :: post
       ∧ for_each float pre body w = (Ok tt, wk)
       ∧ body x wk = (Raise e, wf)).
Proof.
  revert w; induction xs as [|x xs IH]; intros w.
  - left. by exists w.
  - destruct (body x w) as [[[]|e] w'] eqn:Hx.
    + destruct (IH w') as [[wn Hn]|(pre & y & post & e & wk & wf & -> & Hpre & Hy)].
      * left. exists wn. cbn [for_each]. by rewrite bind_run, Hx.
      * right. exists (x :: pre), y, post, e, wk, wf. split; [done|].
        split; [|done]. cbn [for_each]. by rewrite bind_run, Hx.
    + right. by exists [], x, xs, e, w, w'.
Qed.

Lemma generate_embeddings_requests (texts : list string) (w : world float) :
  ∃ embeddings w1,
    generate_embeddings float encode_model texts w = (Ok embeddings, w1)
    ∧ collections w1 = collections w
    ∧ requests w1 = requests w ++ [Encode texts].
Proof.
  unfold generate_embeddings, try_M, encode, external.
  destruct (faults w) as [|[e|] fs]; cbn; eauto.
Qed.

Lemma map_M_points (documents : list document) (embeddings : list (list float))
    (w : world float) :
  map_M float (λ '(doc, embedding),
                 i ← uuid4 float uuid_of; mret (PointStruct i embedding doc))
        (zip documents embeddings) w
  = (Ok (points_of uuid_of (uuids_drawn w) documents embeddings),
     World (collections w) (faults w) (requests w)
           (uuids_drawn w + length (zip documents embeddings))).
Proof.
  unfold points_of. generalize (zip documents embeddings) as des. clear.
  intros des. revert w; induction des as [|[doc emb] des IH]; intros w.
  - cbn. rewrite Nat.add_0_r. by destruct w.
  - cbn [map_M]. rewrite !bind_run. unfold uuid4 at 1. cbn [mret M_ret].
    rewrite bind_run, IH. cbn [collections faults requests uuids_drawn length imap].
    unfold mret, M_ret. rewrite Nat.add_0_r. cbn [fst snd]. f_equal.
    + do 2 f_equal. apply imap_ext. intros i [d e] _. cbn. do 2 f_equal. lia.
    + f_equal. lia.
Qed.

(** The loop over [range(0, len(points), 100)] visits the batches. *)
Lemma add_documents_run (documents : list document)
    (embeddings : list (list float)) (w w1 : world float) :
  documents ≠ [] →
  generate_embeddings float encode_model (map content documents) w = (Ok embeddings, w1) →
  embeddings ≠ [] →
  let points := points_of uuid_of (uuids_drawn w1) documents embeddings in
  let w2 := World (collections w1) (faults w1) (requests w1)
                  (uuids_drawn w1 + length points) in
  add_documents float encode_model uuid_of collection_name documents w =
    match for_each float (batches_of points) (upsert float collection_name) w2 with
    | (Ok _, w3) => (Ok true, w3)
    | (Raise _, w3) => (Ok false, w3)
    end.
Proof.
  intros Hdocs Hemb Hne points w2.
  unfold add_documents, try_M. destruct documents as [|d documents]; [done|].
  rewrite bind_run, Hemb. destruct embeddings as [|v embeddings]; [done|].
  rewrite bind_run, map_M_points. fold points. rewrite bind_run.
  unfold batches_of. rewrite for_each_map.
  replace (uuids_drawn w1 + length (zip (d :: documents) (v :: embeddings)))%nat
    with (uuids_drawn w1 + length points)%nat.
  2: { unfold points, points_of. by rewrite length_imap. }
  fold w2. by destruct (for_each float _ _ w2) as [[[]|e] w3].
Qed.

(** One write: the request is recorded; when it fails nothing is
    stored, when it is served the batch is in the collection. *)
Lemma upsert_run (batch : list (point float)) (w w' : world float)
    (r : exc unit) :
  upsert float collection_name batch w = (r, w') →
  requests w' = requests w ++ [Upsert collection_name batch]
  ∧ match r with
    | Raise _ => collections w' = collections w
    | Ok _ =>
        ∃ c0, collections w !! collection_name = Some c0
              ∧ collections w' =
                  <[collection_name :=
                      Collection (vector_size c0)
                        (foldl (upsert_point float) (points c0) batch)]>
                    (collections w)
    end.
Proof.
  unfold upsert, external, not_found.
  destruct (faults w) as [|[e|] fs];
    destruct (collections w !! collection_name) as [c0|] eqn:Hc0;
    intros [= <- <-]; cbn; eauto.
Qed.

Lemma for_each_upsert_ok (batches : list (list (point float))) (w wn : world float) :
  for_each float batches (upsert float collection_name) w = (Ok tt, wn) →
  requests wn = requests w ++ map (Upsert collection_name) batches
  ∧ ∀ c0, collections w !! collection_name = Some c0 →
          collections wn !! collection_name
          = Some (Collection (vector_size c0)
                    (foldl (upsert_point float) (points c0) (concat batches))).
Proof.
  revert w; induction batches as [|b batches IH]; intros w.
  - intros [= <-]. rewrite app_nil_r. split; [done|]. by intros [] ->.
  - cbn [for_each]. rewrite bind_run.
    destruct (upsert float collection_name b w) as [[[]|e] w'] eqn:Hb; [|done].
    intros Hrest. apply upsert_run in Hb as [Hreq (c & Hc & Hcs)].
    apply IH in Hrest as [Hreq' Hpts]. split.
    + rewrite Hreq', Hreq, <- app_assoc. done.
    + intros c0 Hc0. rewrite Hc0 in Hc. injection Hc as <-.
      rewrite (Hpts (Collection (vector_size c0)
                       (foldl (upsert_point float) (points c0) b))).
      * cbn [concat vector_size points]. by rewrite foldl_app.
      * by rewrite Hcs, lookup_insert_eq.
Qed.

(** C6.  For a non-empty list of documents whose embedding succeeds,
    the points are cut into batches of one to one hundred points.
    The loop either writes all of them, and the call reports
    success; or it stops at the first batch whose write fails: the
    call then reports failure, the requests issued are the writes of
    the batches up to and including the failing one and nothing
    else, and the collection holds the batches written before it. *)
Theorem add_documents_batches (documents : list document)
    (embeddings : list (list float)) (w w1 : world float) :
  documents ≠ [] →
  generate_embeddings float encode_model (map content documents) w = (Ok embeddings, w1) →
  embeddings ≠ [] →
  let pts := points_of uuid_of (uuids_drawn w1) documents embeddings in
  let batches := batches_of pts in
  let w2 := World (collections w1) (faults w1) (requests w1)
                  (uuids_drawn w1 + length pts) in
  let write := upsert float collection_name in
  (Forall (λ b, 0 < length b ≤ 100)%nat batches ∧ concat batches = pts)
  ∧ ((∃ wn, for_each float batches write w2 = (Ok tt, wn))
     ∨ (∃ pre b post e wk wf,
          batches = pre ++ b :: post
          ∧ for_each float pre write w2 = (Ok tt, wk)
          ∧ write b wk = (Raise e, wf)))
  ∧ (∀ wn, for_each float batches write w2 = (Ok tt, wn) →
       add_documents float encode_model uuid_of collection_name documents w
         = (Ok true, wn)
       ∧ requests wn = requests w2 ++ map (Upsert collection_name) batches)
  ∧ (∀ pre b post e wk wf,
       batches = pre ++ b :: post →
       for_each float pre write w2 = (Ok tt, wk) →
       write b wk = (Raise e, wf) →
       add_documents float encode_model uuid_of collection_name documents w
         = (Ok false, wf)
       ∧ requests wf = requests w2 ++ map (Upsert collection_name) (pre ++ [b])
       ∧ collections wf = collections wk
       ∧ ∀ c0, collections w2 !! collection_name = Some c0 →
               collections wf !! collection_name
               = Some (Collection (vector_size c0)
                         (foldl (upsert_point float) (points c0) (concat pre)))).
Proof.
  intros Hdocs Hemb Hne pts batches w2 write.
  pose proof (add_documents_run documents embeddings w w1 Hdocs Hemb Hne) as Hrun.
  cbn zeta in Hrun. fold pts batches w2 write in Hrun.
  split; [apply batches_of_sizes|]. split; [apply for_each_cases|]. split.
  - intros wn Hall. rewrite Hrun, Hall. split; [done|].
    by apply for_each_upsert_ok in Hall as [-> _].
  - intros pre b post e wk wf Hcut Hpre Hb.
    rewrite Hrun, Hcut, for_each_app, Hpre. cbn [for_each]. rewrite bind_run, Hb.
    split; [done|].
    apply upsert_run in Hb as [Hreq Hcs].
    apply for_each_upsert_ok in Hpre as [Hreq' Hpts].
    split; [by rewrite Hreq, Hreq', map_app, <- app_assoc|].
    split; [done|]. intros c0 Hc0. rewrite Hcs. by apply Hpts.
Qed.

(** *** Searching *)

Abbreviation search_attempt :=
  (search_attempt float encode_model nearest collection_name) (only parsing).
Abbreviation search_fuel :=
  (search_fuel float encode_model nearest collection_name) (only parsing).
Abbreviation search :=
  (search float encode_model nearest collection_name) (only parsing).

(** A search whose first attempt succeeds returns its results. *)
Lemma search_first_attempt (n : nat) (query : string) (top_k : Z)
    (filter_dict : option (list (string * filter_value)))
    (w w1 : world float) (results : list (hit float)) :
  search_attempt query top_k filter_dict w = (Ok results, w1) →
  search_fuel (S n) query top_k filter_dict w = (Ok (Some results), w1).
Proof.
  intros Hfirst. cbn [VectorStore.search_fuel]. unfold try_M.
  by rewrite bind_run, Hfirst.
Qed.

(** A search without a filter makes one attempt. *)
Lemma search_unfiltered (n : nat) (query : string) (top_k : Z)
    (filter_dict : option (list (string * filter_value))) (w : world float) :
  provided filter_dict = false →
  search_fuel (S n) query top_k filter_dict w =
    match search_attempt query top_k filter_dict w with
    | (Ok results, w1) => (Ok (Some results), w1)
    | (Raise _, w1) => (Ok (Some []), w1)
    end.
Proof.
  intros Hnone. cbn [VectorStore.search_fuel]. unfold try_M.
  rewrite bind_run, Hnone.
  by destruct (VectorStore.search_attempt _ _ _ _ _ _ _ w) as [[results|e] w1].
Qed.

(** C7.  When the first attempt of a search fails: if a filter was
    provided ([if filter_dict:], a non-empty dictionary), the search is
    attempted once more without the filter,
    from the world the failure left, and what [search] returns is
    the outcome of that second attempt, its results or the empty
    list if it fails too; if no filter was provided nothing more is
    attempted and the result is the empty list.  One level of
    recursion is all it takes. *)
Theorem search_retries_once (n : nat) (query : string) (top_k : Z)
    (filter_dict : option (list (string * filter_value)))
    (w w1 : world float) (e : exn) :
  search_attempt query top_k filter_dict w = (Raise e, w1) →
  search_fuel (S (S n)) query top_k filter_dict w =
    (if provided filter_dict
     then match search_attempt query top_k None w1 with
          | (Ok results, w2) => (Ok (Some results), w2)
          | (Raise _, w2) => (Ok (Some []), w2)
          end
     else (Ok (Some []), w1))
  ∧ search query top_k filter_dict w
    = search_fuel (S (S n)) query top_k filter_dict w
  ∧ (provided filter_dict = true →
     search query top_k filter_dict w = search query top_k None w1).
Proof.
  intros Hfirst.
  assert (∀ m, search_fuel (S (S m)) query top_k filter_dict w =
               (if provided filter_dict
                then match search_attempt query top_k None w1 with
                     | (Ok results, w2) => (Ok (Some results), w2)
                     | (Raise _, w2) => (Ok (Some []), w2)
                     end
                else (Ok (Some []), w1))) as Hfuel.
  { intros m. cbn [VectorStore.search_fuel]. unfold try_M at 1.
    rewrite bind_run, Hfirst.
    destruct (provided filter_dict); [|done].
    change (try_M float _ _ w1) with (search_fuel (S m) query top_k None w1).
    by rewrite search_unfiltered. }
  split; [apply Hfuel|]. split.
  - unfold VectorStore.search. by rewrite (Hfuel 0%nat), (Hfuel n).
  - intros Hfilter. unfold VectorStore.search. rewrite (Hfuel 0%nat), Hfilter.
    by rewrite search_unfiltered.
Qed.

End Store.

Lemma create_collection_idempotent_witness :
  ∃ w1,
    create_collection Z toy_encode toy_name false (toy_world []) = (Ok true, w1)
    ∧ collections w1 = collections (toy_world [])
    ∧ requests w1 = requests (toy_world []) ++ [GetCollections]
    ∧ ∀ r2 w2,
        create_collection Z toy_encode toy_name false w1 = (r2, w2) →
        collections w2 = collections (toy_world [])
        ∧ requests w2 = requests (toy_world []) ++ [GetCollections; GetCollections]
        ∧ (next_call_served w1 → r2 = Ok true).
Proof.
  apply (create_collection_idempotent toy_encode toy_name (toy_world [])
           (Collection 1 [PointStruct "id-old" [7] toy_doc])).
  - reflexivity.
  - exact I.
Defined.

(** Two hundred and one documents with the second write failing: three
    batches of 100, 100 and 1 points; the third is never sent, and the
    first stays in the collection. *)
Lemma add_documents_batches_witness :
  let embeddings := toy_encode (map content three_batches) in
  let pts := points_of toy_uuid 0 three_batches embeddings in
  let first := slice pts 0 100 in
  let second := slice pts 100 200 in
  let third := slice pts 200 300 in
  (Forall (λ b, 0 < length b ≤ 100)%nat (batches_of pts)
   ∧ concat (batches_of pts) = pts)
  ∧ batches_of pts = [first; second; third]
  ∧ ∃ wf,
      add_documents Z toy_encode toy_uuid toy_name three_batches second_write_fails
        = (Ok false, wf)
      ∧ requests wf = [Encode (map content three_batches);
                       Upsert toy_name first; Upsert toy_name second]
      ∧ collections wf !! toy_name
        = Some (Collection 1
                  (foldl (upsert_point Z) [PointStruct "id-old" [7] toy_doc] first)).
Proof.
  intros embeddings pts first second third.
  pose (w1 := (generate_embeddings Z toy_encode (map content three_batches)
                 second_write_fails).2).
  destruct (add_documents_batches toy_encode toy_uuid toy_name three_batches embeddings
              second_write_fails w1)
    as (Hsizes & _ & _ & Hstop);
    [by intros H%(f_equal length) | vm_compute; reflexivity
    | by intros H%(f_equal length) |].
  pose (w2 := World (collections w1) (faults w1) (requests w1) 201).
  pose (wk := (upsert Z toy_name first w2).2).
  pose (wf := (upsert Z toy_name second wk).2).
  destruct (Hstop [first] second [third] (IOError "timed out") wk wf)
    as (Hres & Hreq & _ & Hkept); [vm_compute; reflexivity ..|].
  split; [exact Hsizes|]. split; [vm_compute; reflexivity|].
  exists wf. split; [exact Hres|]. split.
  - rewrite Hreq. vm_compute. reflexivity.
  - rewrite (Hkept (Collection 1 [PointStruct "id-old" [7] toy_doc]));
      [cbn [concat]; by rewrite app_nil_r | reflexivity].
Defined.

(** One hundred and one documents go out in two batches; when the
    second write fails the call reports failure and the first hundred
    points stay in the collection, next to the point stored before. *)
Example add_documents_second_write_fails :
  let '(r, wf) :=
    add_documents Z toy_encode toy_uuid toy_name toy_docs second_write_fails in
  r = Ok false
  ∧ map request_size (requests wf) = [("encode", 101); ("upsert", 100); ("upsert", 1)]%nat
  ∧ (map id ∘ points) <$> collections wf !! toy_name
    = Some ("id-old" :: map toy_uuid (seq 0 100)).
Proof. vm_compute. repeat split; reflexivity. Qed.

Example add_documents_all_written :
  let '(r, wf) :=
    add_documents Z toy_encode toy_uuid toy_name toy_docs (toy_world []) in
  r = Ok true
  ∧ map request_size (requests wf) = [("encode", 101); ("upsert", 100); ("upsert", 1)]%nat
  ∧ (map id ∘ points) <$> collections wf !! toy_name
    = Some ("id-old" :: map toy_uuid (seq 0 101)).
Proof. vm_compute. repeat split; reflexivity. Qed.

Example add_documents_nothing :
  (add_documents Z toy_encode toy_uuid toy_name [] (toy_world [])).1 = Ok false.
Proof. reflexivity. Qed.

Lemma search_retries_once_witness :
  search Z toy_encode toy_nearest toy_name "checkout form" 5
    (Some [("file_type", FStr "html")]) first_search_fails
  = search Z toy_encode toy_nearest toy_name "checkout form" 5 None
      (search_attempt Z toy_encode toy_nearest toy_name "checkout form" 5
         (Some [("file_type", FStr "html")]) first_search_fails).2.
Proof.
  apply (search_retries_once toy_encode toy_nearest toy_name 0 "checkout form" 5
           (Some [("file_type", FStr "html")]) first_search_fails _
           (IOError "timed out")); reflexivity.
Defined.

(** The filtered attempt fails, the retry without filter is served:
    four requests in all, and the stored document is returned. *)
Example search_filtered_then_unfiltered :
  let '(r, w') :=
    search Z toy_encode toy_nearest toy_name "checkout form" 5
      (Some [("file_type", FStr "html")]) first_search_fails in
  r = Ok (Some [Hit "pay with card" {[ "source" := MStr "spec.md" ]} 1])
  ∧ map request_size (requests w')
    = [("encode", 1); ("search", 1); ("encode", 1); ("search", 0)]%nat.
Proof. vm_compute. split; reflexivity. Qed.

(** Without a filter the failure is final. *)
Example search_unfiltered_fails :
  let '(r, w') :=
    search Z toy_encode toy_nearest toy_name "checkout form" 5 None first_search_fails in
  r = Ok (Some []) ∧ map request_size (requests w') = [("encode", 1); ("search", 0)]%nat.
Proof. vm_compute. split; reflexivity. Qed.

(** An empty filter dictionary counts as no filter. *)
Example search_empty_filter_fails :
  (search Z toy_encode toy_nearest toy_name "checkout form" 5 (Some [])
     first_search_fails).1 = Ok (Some []).
Proof. reflexivity. Qed.

(** A value [MatchValue] rejects makes the first attempt run without
    filter; it is served here. *)
Example search_rejected_filter :
  let '(r, w') :=
    search Z toy_encode toy_nearest toy_name "checkout form" 5
      (Some [("page", FOther)]) (toy_world []) in
  r = Ok (Some [Hit "pay with card" {[ "source" := MStr "spec.md" ]} 1])
  ∧ map request_size (requests w') = [("encode", 1); ("search", 0)]%nat.
Proof. vm_compute. split; reflexivity. Qed.

(** With [force_recreate] the stored points are gone. *)
Example create_collection_force :
  collections (create_collection Z toy_encode toy_name true (toy_world [])).2
  = {[ toy_name := Collection 1 [] ]}.
Proof. vm_compute. reflexivity. Qed.

End VectorStoreFacts.

(** ** Collection statistics *)

Module InfoFacts.
Import VectorStore Statements.

Section Info.
Variable settings : Settings.
Variable requests_get : string → option (list (string * string)) → exc response.

(** The dictionary returned by the exception handler. *)
Lemma get_collection_info_handler :
  get_collection_info settings requests_get =
    {[ "name" := JStr (QDRANT_COLLECTION_NAME settings);
       "points_count" := JInt 0;
       "vectors_count" := JInt 0;
       "status" := JStr "unknown" ]}
  → get_collection_info settings requests_get !! "points_count" = Some (JInt 0)
    ∧ get_collection_info settings requests_get !! "status" = Some (JStr "unknown").
Proof. intros ->. by simplify_map_eq. Qed.

(** When the transport raises, the handler answers. *)
Lemma get_collection_info_transport_error :
  (∀ url headers, ∃ e, requests_get url headers = Raise e) →
  get_collection_info settings requests_get =
    {[ "name" := JStr (QDRANT_COLLECTION_NAME settings);
       "points_count" := JInt 0;
       "vectors_count" := JInt 0;
       "status" := JStr "unknown" ]}.
Proof.
  intros Hraise. unfold get_collection_info.
  destruct (nonempty (QDRANT_URL settings) && nonempty (QDRANT_API_KEY settings)).
  - by destruct (Hraise
      (replace_double_colon
         (rstrip_slash (QDRANT_URL settings) +:+ ":" +:+
          (if negb (str_in ":" (QDRANT_URL settings))
           then pretty (QDRANT_PORT settings) else "") +:+
          "/collections/" +:+ QDRANT_COLLECTION_NAME settings))
      (Some [("api-key", QDRANT_API_KEY settings)])) as [e ->].
  - by destruct (Hraise
      ("http://" +:+ QDRANT_HOST settings +:+ ":" +:+
       pretty (QDRANT_PORT settings) +:+ "/collections/" +:+
       QDRANT_COLLECTION_NAME settings) None) as [e ->].
Qed.

(** When the transport answers with a status other than 200, the
    dictionary has two keys, and ["status"] is not one of them. *)
Lemma get_collection_info_other_status (resp : response) :
  (∀ url headers, requests_get url headers = Ok resp) →
  status_code resp ≠ 200 →
  get_collection_info settings requests_get =
    {[ "name" := JStr (QDRANT_COLLECTION_NAME settings); "points_count" := JInt 0 ]}.
Proof.
  intros Hresp Hstatus. unfold get_collection_info.
  destruct (nonempty (QDRANT_URL settings) && nonempty (QDRANT_API_KEY settings));
    rewrite Hresp; cbn [mbind exc_bind];
    by destruct (Z.eqb_spec (status_code resp) 200).
Qed.

End Info.

(** C8 does not hold on a status other than 200: for a missing
    collection (404) the call returns without raising, with a point
    count of 0, but the dictionary has no ["status"] entry, where the
    handler of the same function answers ["unknown"]. *)
Theorem get_collection_info_404_lacks_status :
  get_collection_info local_settings answers_404
    = {[ "name" := JStr "qa_agent_docs"; "points_count" := JInt 0 ]}
  ∧ get_collection_info local_settings answers_404 !! "points_count" = Some (JInt 0)
  ∧ get_collection_info local_settings answers_404 !! "status" = None
  ∧ get_collection_info local_settings refuses !! "status" = Some (JStr "unknown")
  ∧ get_collection_info local_settings answers_garbage !! "status" = Some (JStr "unknown").
Proof.
  rewrite (get_collection_info_other_status local_settings answers_404 _ (λ _ _, eq_refl))
    by done.
  split; [done|]. cbn [QDRANT_COLLECTION_NAME local_settings].
  split; [by simplify_map_eq|]. split; [by simplify_map_eq|].
  split.
  - apply get_collection_info_handler, get_collection_info_transport_error.
    intros url headers. by eexists.
  - by apply get_collection_info_handler.
Qed.

(** The URL requested for a hosted index whose address carries a port
    and a trailing slash: the slash is dropped, and a colon is put
    before the path. *)
Example get_collection_info_cloud_url :
  get_collection_info cloud_settings
    (answers_at "https://qa.example.io:6333:/collections/qa_agent_docs")
    !! "points_count" = Some (JInt 3).
Proof. vm_compute. reflexivity. Qed.

Example get_collection_info_served :
  get_collection_info local_settings answers_ok
    = {[ "name" := JStr "qa_agent_docs"; "points_count" := JInt 12;
         "vectors_count" := JInt 0; "status" := JStr "green" ]}.
Proof. vm_compute. reflexivity. Qed.

End InfoFacts.

(** ** The document pipeline *)

Module PipelineFacts.
Import Bs4 DocumentProcessor PyText Pipeline Statements MoreStatements ChunkFacts PyFacts.

Lemma for_acc_app {A St} (step : St → A → exc St) (acc : St) (xs ys : list A) :
  for_acc step acc (xs ++ ys) = (acc' ← for_acc step acc xs; for_acc step acc' ys).
Proof.
  revert acc; induction xs as [|x xs IH]; intros acc; [done|].
  cbn [app for_acc mbind exc_bind]. destruct (step acc x) as [acc'|e]; [apply IH | done].
Qed.

Lemma seq_snoc (k n : nat) : seq k (S n) = seq k n ++ [(k + n)%nat].
Proof. by rewrite <- Nat.add_1_r, seq_app. Qed.

(** X1: pages of a PDF.  A document without pages gives the empty text;
    a further page adds, after the text of the pages before it, its
    marker line, numbered from 1, and then its own text. *)
Theorem extract_pdf_pages (pages : list string) (page file_path : string) :
  _extract_pdf (λ _, Ok []) file_path = Ok ""
  ∧ ∃ text,
      _extract_pdf (λ _, Ok pages) file_path = Ok text
      ∧ _extract_pdf (λ _, Ok (pages ++ [page])) file_path
        = Ok (text +:+ (LF +:+ "--- Page " +:+ pretty (Z.of_nat (length pages) + 1)
                        +:+ " ---" +:+ LF) +:+ page).
Proof.
  split; [done|]. eexists. split; [done|].
  unfold _extract_pdf. cbn [mbind exc_bind mret exc_ret try_except]. f_equal.
  unfold enumerate. rewrite length_app, Nat.add_1_r, seq_snoc.
  rewrite zip_with_app by by rewrite length_seq.
  rewrite foldl_app. cbn [zip_with foldl Nat.add]. unfold page_marker.
  by rewrite !append_assoc.
Qed.

Example extract_pdf_two_pages :
  _extract_pdf (λ _, Ok ["one"; "two"]) "a.pdf"
  = Ok (LF +:+ "--- Page 1 ---" +:+ LF +:+ "one" +:+ LF +:+ "--- Page 2 ---" +:+ LF +:+ "two").
Proof. vm_compute. reflexivity. Qed.

Section Processor.
Variable open_read : string → exc string.
Variable html_parser : string → exc node.
Variable split_text : string → exc (list string).
Variable markdown_markdown : string → exc string.
Variable J : Type.
Variable json_loads : string → exc J.
Variable json_dumps : J → string.
Variable fitz_open : string → exc (list string).

Abbreviation extract_text_from_file :=
  (extract_text_from_file open_read html_parser markdown_markdown J json_loads json_dumps
     fitz_open) (only parsing).
Abbreviation process_document :=
  (process_document open_read html_parser split_text markdown_markdown J json_loads
     json_dumps fitz_open) (only parsing).
Abbreviation process_multiple_documents :=
  (process_multiple_documents open_read html_parser split_text markdown_markdown J
     json_loads json_dumps fitz_open) (only parsing).

(** X2: unsupported type.  For a file type other than the five handled,
    matched exactly and with case, no chunk is produced, whatever the
    file holds and whatever the splitter would do. *)
Theorem process_document_unsupported (file_path file_name file_type : string) :
  file_type ∉ ["txt"; "md"; "json"; "pdf"; "html"] →
  process_document file_path file_name file_type = [].
Proof.
  intros Hnot. unfold Pipeline.process_document, Pipeline.extract_text_from_file.
  repeat match goal with
         | |- context [String.eqb file_type ?t] =>
             destruct (String.eqb_spec file_type t) as [->|_];
               [exfalso; apply Hnot; set_solver|]
         end.
  done.
Qed.

(** X3: unreadable file.  When the file cannot be read, no chunk is
    produced for any type read through [open]: text, Markdown, JSON and
    HTML alike (PDF files are opened by the PDF library). *)
Theorem process_document_unreadable (file_path file_name file_type : string) (e : exn) :
  open_read file_path = Raise e →
  file_type ≠ "pdf" →
  process_document file_path file_name file_type = [].
Proof.
  intros Hread Hpdf. unfold Pipeline.process_document, Pipeline.extract_text_from_file,
    _extract_txt, _extract_markdown, _extract_json, _extract_html.
  rewrite Hread.
  repeat match goal with
         | |- context [String.eqb file_type ?t] =>
             destruct (String.eqb_spec file_type t) as [->|_]; [done|]
         end.
  done.
Qed.

(** X4: provenance.  Every chunk of a document records the file name as
    [source], the file type and the file path, and its metadata has
    these three keys, [chunk_id] and [total_chunks], and no other. *)
Theorem process_document_provenance (file_path file_name file_type : string) :
  Forall (λ d,
            metadata d !! "source" = Some (MStr file_name)
            ∧ metadata d !! "file_type" = Some (MStr file_type)
            ∧ metadata d !! "file_path" = Some (MStr file_path)
            ∧ dom (metadata d)
              = {[ "source"; "file_type"; "file_path"; "chunk_id"; "total_chunks" ]})
         (process_document file_path file_name file_type).
Proof.
  unfold Pipeline.process_document. destruct (no_text _); [done|].
  rewrite chunk_text_map. destruct (split_text _) as [chunks|e]; [|done].
  apply Forall_map, Forall_forall. intros [i c] _. cbn [doc_of metadata fst snd].
  split_and!; [by simplify_map_eq .. |].
  rewrite !dom_insert_L, dom_singleton_L. set_solver.
Qed.

(** One file of the batch: the chunks gathered grow by those of the
    file, or stay as they are when a key other than ['name'] is
    missing. *)
Lemma batch_step_named (fi : gmap string string) (acc : list document) (name : string) :
  fi !! "name" = Some name →
  try_except
    (path ← getitem fi "path";
     name ← getitem fi "name";
     type ← getitem fi "type";
     mret (acc ++ process_document path name type))
    (λ e, _ ← getitem fi "name"; mret acc)
  = Ok (acc ++ match fi !! "path", fi !! "type" with
               | Some path, Some type => process_document path name type
               | _, _ => []
               end).
Proof.
  intros Hname. unfold getitem. rewrite Hname.
  destruct (fi !! "path") as [path|], (fi !! "type") as [type|]; cbn;
    by rewrite ?app_nil_r.
Qed.

Lemma batch_step_unnamed (fi : gmap string string) (acc : list document) :
  fi !! "name" = None →
  try_except
    (path ← getitem fi "path";
     name ← getitem fi "name";
     type ← getitem fi "type";
     mret (acc ++ process_document path name type))
    (λ e, _ ← getitem fi "name"; mret acc)
  = Raise (KeyError "name").
Proof.
  intros Hname. unfold getitem. rewrite Hname.
  by destruct (fi !! "path") as [path|].
Qed.

(** X5: partial failure.  A file entry that has a name and yields no
    chunk, because a key is missing, the type is unsupported, the file
    is unreadable or empty, is passed over: the batch gives what it
    gives without that entry. *)
Theorem failed_file_is_skipped (before after : list (gmap string string))
    (fi : gmap string string) :
  is_Some (fi !! "name") →
  (∀ path name type,
     fi !! "path" = Some path → fi !! "name" = Some name → fi !! "type" = Some type →
     process_document path name type = []) →
  process_multiple_documents (before ++ fi :: after)
  = process_multiple_documents (before ++ after).
Proof.
  intros [name Hname] Hnone. unfold Pipeline.process_multiple_documents.
  rewrite !for_acc_app. destruct (for_acc _ [] before) as [acc|e]; [|done].
  cbn [mbind exc_bind for_acc]. rewrite (batch_step_named fi acc name Hname).
  destruct (fi !! "path") as [path|] eqn:Hp, (fi !! "type") as [type|] eqn:Ht;
    rewrite ?(Hnone path name type) by done; by rewrite app_nil_r.
Qed.

Lemma batch_from (l : list (gmap string string)) (acc : list document) :
  (Forall (λ fi, is_Some (fi !! "name")) l
   → ∃ chunks,
       for_acc (λ all_chunks file_info,
                  try_except
                    (path ← getitem file_info "path";
                     name ← getitem file_info "name";
                     type ← getitem file_info "type";
                     mret (all_chunks ++ process_document path name type))
                    (λ e, _ ← getitem file_info "name"; mret all_chunks))
               acc l = Ok chunks)
  ∧ (¬ Forall (λ fi, is_Some (fi !! "name")) l
     → for_acc (λ all_chunks file_info,
                  try_except
                    (path ← getitem file_info "path";
                     name ← getitem file_info "name";
                     type ← getitem file_info "type";
                     mret (all_chunks ++ process_document path name type))
                    (λ e, _ ← getitem file_info "name"; mret all_chunks))
               acc l = Raise (KeyError "name")).
Proof.
  revert acc; induction l as [|fi l IH]; intros acc.
  - split; [by exists acc | intros []; constructor].
  - cbn [for_acc]. destruct (fi !! "name") as [name|] eqn:Hname.
    + rewrite (batch_step_named fi acc name Hname). cbn [mbind exc_bind].
      split.
      * intros [_ Hl]%Forall_cons_1. by apply IH.
      * intros Hnot. apply IH. intros Hl. apply Hnot. by constructor.
    + rewrite (batch_step_unnamed fi acc Hname). cbn [mbind exc_bind]. split.
      * intros [[x Hx] _]%Forall_cons_1. congruence.
      * done.
Qed.

(** X6: file entries without a name.  The batch returns its chunks
    exactly when every entry has a ['name'] key; an entry without one
    makes the call raise [KeyError('name')], from the handler meant to
    pass over the failing file, and the chunks gathered so far are not
    returned. *)
Theorem batch_raises_iff_unnamed (file_list : list (gmap string string)) :
  ((∃ chunks, process_multiple_documents file_list = Ok chunks)
   ↔ Forall (λ fi, is_Some (fi !! "name")) file_list)
  ∧ (process_multiple_documents file_list = Raise (KeyError "name")
     ↔ ¬ Forall (λ fi, is_Some (fi !! "name")) file_list).
Proof.
  destruct (batch_from file_list []) as [Hok Hraise].
  destruct (decide (Forall (λ fi, is_Some (fi !! "name")) file_list)) as [Hall|Hnot].
  - destruct (Hok Hall) as [chunks Hchunks]. split.
    + split; [done | by exists chunks].
    + unfold Pipeline.process_multiple_documents. rewrite Hchunks. by split.
  - specialize (Hraise Hnot). split.
    + unfold Pipeline.process_multiple_documents. rewrite Hraise.
      split; [by intros [? ?] | done].
    + by split.
Qed.

End Processor.

Abbreviation toy_process_document :=
  (process_document toy_read toy_parser toy_split toy_markdown string toy_loads toy_dumps
     toy_fitz) (only parsing).
Abbreviation toy_batch :=
  (process_multiple_documents toy_read toy_parser toy_split toy_markdown string toy_loads
     toy_dumps toy_fitz) (only parsing).

Lemma process_document_unsupported_witness :
  toy_process_document "notes.docx" "notes.docx" "docx" = [].
Proof.
  apply (process_document_unsupported toy_read toy_parser toy_split toy_markdown string
           toy_loads toy_dumps toy_fitz).
  intros Hin. repeat (apply elem_of_cons in Hin as [Hin|Hin]; [discriminate|]).
  by apply elem_of_nil in Hin.
Defined.

Lemma process_document_unreadable_witness :
  toy_process_document "missing.txt" "missing.txt" "md" = [].
Proof.
  apply (process_document_unreadable toy_read toy_parser toy_split toy_markdown string
           toy_loads toy_dumps toy_fitz "missing.txt" "missing.txt" "md"
           (IOError "No such file or directory")); [reflexivity | discriminate].
Defined.

Lemma failed_file_is_skipped_witness :
  toy_batch [entry "a.txt" "a.txt" "txt"; entry "missing.txt" "missing.txt" "txt";
             entry "c.md" "c.md" "md"]
  = toy_batch [entry "a.txt" "a.txt" "txt"; entry "c.md" "c.md" "md"].
Proof.
  apply (failed_file_is_skipped toy_read toy_parser toy_split toy_markdown string
           toy_loads toy_dumps toy_fitz [entry "a.txt" "a.txt" "txt"]
           [entry "c.md" "c.md" "md"] (entry "missing.txt" "missing.txt" "txt")).
  - by exists "missing.txt".
  - intros path name type Hpath Hname Htype.
    vm_compute in Hpath, Hname, Htype.
    injection Hpath as <-. injection Hname as <-. injection Htype as <-. reflexivity.
Defined.

(** Three files, the second unreadable: the chunks of the first and of
    the third, each numbered from 0. *)
Example batch_of_three :
  (λ chunks, map (λ d, (content d, metadata d !! "source", metadata d !! "chunk_id")) chunks)
    <$> match toy_batch [entry "a.txt" "a.txt" "txt";
                         entry "missing.txt" "missing.txt" "txt";
                         entry "c.json" "c.json" "json"] with
        | Ok chunks => Some chunks
        | Raise _ => None
        end
  = Some [("text of a.txt", Some (MStr "a.txt"), Some (MInt 0));
          ("text of c.json", Some (MStr "c.json"), Some (MInt 0))].
Proof. vm_compute. reflexivity. Qed.

(** An entry without a path is passed over, one without a name is
    not. *)
Example batch_with_incomplete_entries :
  toy_batch [{[ "name" := "a.txt"; "type" := "txt" ]}] = Ok []
  ∧ toy_batch [entry "a.txt" "a.txt" "txt"; {[ "path" := "b.txt"; "type" := "txt" ]}]
    = Raise (KeyError "name").
Proof. split; vm_compute; reflexivity. Qed.

Example empty_pdf_gives_no_chunk :
  process_document toy_read toy_parser toy_split toy_markdown string toy_loads toy_dumps
    (λ _, Ok []) "empty.pdf" "empty.pdf" "pdf" = [].
Proof. reflexivity. Qed.

End PipelineFacts.

(** ** Strings: stripping, splitting, cutting *)

Module PyTextFacts.
Import PyText PyFacts DocumentProcessor.

Lemma append_empty_r (s : string) : s +:+ "" = s.
Proof. induction s as [|c s IH]; [done|]. by rewrite append_cons, IH. Qed.

Lemma length_append (a b : string) :
  String.length (a +:+ b) = (String.length a + String.length b)%nat.
Proof. induction a as [|c a IH]; [done|]. rewrite append_cons. cbn. by rewrite IH. Qed.

Lemma rstrip_cons_keep (c : ascii) (s : string) :
  is_space c = false → rstrip (String c s) = String c (rstrip s).
Proof. intros Hc. cbn [rstrip]. rewrite Hc. by destruct (rstrip s). Qed.

Lemma rstrip_app_keep (s t : string) :
  rstrip t ≠ "" → rstrip (s +:+ t) = s +:+ rstrip t.
Proof.
  intros Ht. induction s as [|c s IH]; [done|].
  rewrite !append_cons. cbn [rstrip]. rewrite IH.
  destruct (s +:+ rstrip t) eqn:Hs; [|done].
  destruct s; [by rewrite append_nil in Hs | by rewrite append_cons in Hs].
Qed.

Lemma split_char_nonempty (c : ascii) (s : string) : split_char c s ≠ [].
Proof.
  induction s as [|a s IH]; [done|]. cbn [split_char].
  destruct (Ascii.eqb a c); [done|]. by destruct (split_char c s).
Qed.

(** Splitting at a separator splits what is before it and what is
    after it. *)
Lemma split_char_app (c : ascii) (a b : string) :
  split_char c (a +:+ String c b) = split_char c a ++ split_char c b.
Proof.
  induction a as [|x a' IH].
  - rewrite append_nil. cbn [split_char]. by rewrite Ascii.eqb_refl.
  - rewrite append_cons. cbn [split_char]. rewrite IH.
    destruct (Ascii.eqb x c); [done|].
    pose proof (split_char_nonempty c a'). by destruct (split_char c a').
Qed.

Lemma split_char_absent (c : ascii) (s : string) :
  str_in (String c "") s = false → split_char c s = [s].
Proof.
  induction s as [|a s IH]; [done|]. cbn [str_in startswith split_char].
  rewrite (Ascii.eqb_sym c a). destruct (Ascii.eqb a c); [by destruct s|].
  intros Hs. by rewrite (IH Hs).
Qed.

(** Joining the pieces with the separator gives the string back. *)
Lemma join_split_char (c : ascii) (s : string) :
  join (String c "") (split_char c s) = s.
Proof.
  induction s as [|a s IH]; [done|]. cbn [split_char].
  pose proof (split_char_nonempty c s) as Hne.
  destruct (Ascii.eqb_spec a c) as [->|_].
  - destruct (split_char c s) as [|p ps] eqn:Hs; [done|].
    change (join (String c "") ("" :: p :: ps))
      with ("" +:+ String c "" +:+ join (String c "") (p :: ps)).
    by rewrite IH.
  - destruct (split_char c s) as [|p ps] eqn:Hs; [done|]. rewrite <- IH.
    destruct ps; [done|]. cbn [join]. by rewrite append_cons.
Qed.

Lemma startswith_refl_app (p post : string) : startswith p (p +:+ post) = true.
Proof. apply startswith_spec. by exists post. Qed.

Lemma drop_str_app (p post : string) : drop_str (String.length p) (p +:+ post) = post.
Proof. induction p as [|c p IH]; [done|]. by rewrite append_cons. Qed.

(** A string that starts where [t] starts either lies within [t] or
    runs past its end. *)
Lemma startswith_overlap (sep t x : string) :
  startswith sep (t +:+ x) = true →
  (∃ r, t = sep +:+ r) ∨ (∃ s2, sep = t +:+ s2).
Proof.
  revert t; induction sep as [|a sep IH]; intros t Hs.
  - left. by exists t.
  - destruct t as [|b t]; [right; by exists (String a sep)|].
    rewrite append_cons in Hs. cbn [startswith] in Hs.
    destruct (Ascii.eqb_spec a b) as [->|_]; [|done].
    destruct (IH t Hs) as [[r ->]|[s2 ->]]; [left; by exists r | right; by exists s2].
Qed.

Lemma suffix_keeps_end (body u t : string) (c : ascii) :
  body +:+ String c "" = u +:+ t → t ≠ "" → ∃ t0, t = t0 +:+ String c "".
Proof.
  revert u; induction body as [|x body IH]; intros u Heq Ht.
  - destruct u as [|y u].
    + rewrite !append_nil in Heq. subst t. by exists "".
    + rewrite append_nil, append_cons in Heq. injection Heq as _ Heq.
      destruct u, t; done.
  - destruct u as [|y u].
    + rewrite append_nil in Heq. subst t. by exists (String x body).
    + rewrite !append_cons in Heq. injection Heq as _ Heq. by apply (IH u).
Qed.

Lemma cut_absent (sep s : string) : str_in sep s = false → cut sep s = None.
Proof.
  induction s as [|c s IH]; cbn [str_in cut].
  - by destruct (startswith sep "").
  - destruct (startswith sep (String c s)); [done|]. intros Hs. by rewrite (IH Hs).
Qed.

Lemma cut_unfold (sep s : string) :
  cut sep s =
    if startswith sep s then Some ("", drop_str (String.length sep) s)
    else match s with
         | EmptyString => None
         | String c s' =>
             match cut sep s' with
             | Some (before, after) => Some (String c before, after)
             | None => None
             end
         end.
Proof. by destruct s. Qed.

(** The cut happens at an occurrence no other occurrence starts
    before. *)
Lemma cut_at (sep pre post : string) :
  (∀ u t, pre = u +:+ t → t ≠ "" → startswith sep (t +:+ sep +:+ post) = false) →
  cut sep (pre +:+ sep +:+ post) = Some (pre, post).
Proof.
  induction pre as [|c pre IH]; intros Hfirst.
  - rewrite append_nil, cut_unfold, startswith_refl_app. by rewrite drop_str_app.
  - rewrite append_cons. cbn [cut].
    rewrite <- append_cons, (Hfirst "" (String c pre)) by done.
    rewrite IH; [done|].
    intros u t -> Ht. by apply (Hfirst (String c u) t).
Qed.

(** The first occurrence of a separator that comes after a line feed
    and has none: where the text before has no occurrence. *)
Lemma cut_after_line (sep body post : string) :
  str_in LF sep = false →
  ¬ occurs sep (body +:+ LF) →
  cut sep ((body +:+ LF) +:+ sep +:+ post) = Some (body +:+ LF, post).
Proof.
  intros Hlf Hnone. apply cut_at. intros u t Heq Ht.
  destruct (startswith sep (t +:+ sep +:+ post)) eqn:Hs; [|done]. exfalso.
  destruct (startswith_overlap _ _ _ Hs) as [[r ->]|[s2 Hsep]].
  - apply Hnone. rewrite Heq. by exists u, r.
  - destruct (suffix_keeps_end _ _ _ _ Heq Ht) as [t0 ->].
    apply str_in_absent in Hlf. apply Hlf. exists t0, s2.
    by rewrite Hsep, append_assoc.
Qed.

Lemma cut_spec (sep s before after : string) :
  cut sep s = Some (before, after) → s = before +:+ sep +:+ after.
Proof.
  revert before; induction s as [|c s IH]; intros before; cbn [cut].
  - destruct (startswith sep "") eqn:Hs; [|done]. intros [= <- <-].
    apply startswith_spec in Hs as [post Hpost].
    destruct sep; [done | by rewrite append_cons in Hpost].
  - destruct (startswith sep (String c s)) eqn:Hs.
    + intros [= <- <-]. apply startswith_spec in Hs as [post Hpost].
      rewrite Hpost. by rewrite drop_str_app, append_nil.
    + destruct (cut sep s) as [[b a]|]; [|done]. intros [= <- <-].
      by rewrite append_cons, <- (IH b).
Qed.

(** Cutting needs no more budget than the length of the string. *)
Lemma split_fuel_enough (sep : string) (n : nat) :
  sep ≠ "" →
  ∀ s k, (String.length s ≤ k)%nat → (k ≤ n)%nat →
         split_fuel k sep s = split_fuel (String.length s) sep s.
Proof.
  intros Hsep. induction n as [|n IH]; intros s k Hs Hk.
  - by replace k with (String.length s) by lia.
  - destruct k as [|k]; [by replace (String.length s) with 0%nat by lia|].
    destruct (String.length s) as [|m] eqn:Hlen.
    + destruct s; [|done]. cbn. destruct sep; [done|]. done.
    + cbn [split_fuel]. destruct (cut sep s) as [[b a]|] eqn:Hcut; [|done].
      f_equal. apply cut_spec in Hcut.
      assert (String.length a ≤ m)%nat as Ha.
      { assert (String.length s = String.length b + (String.length sep + String.length a))%nat
          as Hl by by rewrite Hcut at 1; rewrite !length_append.
        destruct sep; [done|]. cbn in Hl. lia. }
      rewrite (IH a k) by lia. by rewrite (IH a m) by lia.
Qed.

End PyTextFacts.

(** ** Cleaning the answer of the model *)

Module CleanFacts.
Import PyText PyFacts PyTextFacts DocumentProcessor VectorStore ScriptSynthesis.

Lemma LF_is_char : LF = String LF_char "".
Proof. reflexivity. Qed.

(** The text between two fences is not touched by [strip]. *)
Lemma strip_fenced (body : string) :
  strip ("```" +:+ body +:+ "```") = "```" +:+ body +:+ "```".
Proof.
  unfold strip.
  change (lstrip ("```" +:+ body +:+ "```")) with ("```" +:+ body +:+ "```").
  rewrite <- (append_assoc "```" body "```"). by rewrite rstrip_app_keep.
Qed.

Lemma strip_fence_line (tag : string) : startswith "```" (strip ("```" +:+ tag)) = true.
Proof.
  unfold strip. change (lstrip ("```" +:+ tag)) with (String "`" (String "`" (String "`" tag))).
  by rewrite !rstrip_cons_keep.
Qed.

(** X7: fenced answers.  An answer made of an opening fence line, with
    or without a language tag, the script, and a closing fence is
    returned as the script alone, character for character, whatever the
    script contains. *)
Theorem clean_response_fenced (tag code : string) :
  str_in LF tag = false →
  clean_response ("```" +:+ tag +:+ LF +:+ code +:+ LF +:+ "```") = Ok code.
Proof.
  intros Htag.
  assert (strip ("```" +:+ tag +:+ LF +:+ code +:+ LF +:+ "```")
          = "```" +:+ tag +:+ LF +:+ code +:+ LF +:+ "```") as Hstrip.
  { assert ("```" +:+ tag +:+ LF +:+ code +:+ LF +:+ "```"
            = "```" +:+ (tag +:+ LF +:+ code +:+ LF) +:+ "```") as ->
      by by rewrite !append_assoc.
    apply strip_fenced. }
  assert (split_char LF_char ("```" +:+ tag +:+ LF +:+ code +:+ LF +:+ "```")
          = ("```" +:+ tag) :: split_char LF_char code ++ ["```"]) as Hlines.
  { transitivity (split_char LF_char
                    (("```" +:+ tag) +:+ String LF_char (code +:+ String LF_char "```"))).
    { f_equal; by rewrite ?append_assoc. }
    rewrite !split_char_app. by rewrite (split_char_absent LF_char ("```" +:+ tag)). }
  unfold clean_response. rewrite Hstrip, startswith_refl_app, Hlines.
  cbn [first_item mbind exc_bind]. rewrite strip_fence_line. cbn [tail].
  pose proof (split_char_nonempty LF_char code) as Hne.
  destruct (split_char LF_char code ++ ["```"]) as [|l ls] eqn:Hrest.
  { by destruct (split_char LF_char code). }
  rewrite <- Hrest, last_last, removelast_last.
  change (startswith "```" (strip "```")) with true. cbn iota.
  by rewrite LF_is_char, join_split_char.
Qed.

(** X8: answers without an opening fence.  Cleaning never raises; an
    answer that, once stripped, does not begin with a fence is returned
    stripped and otherwise unchanged, a closing fence included. *)
Theorem clean_response_total (response : string) :
  ∃ cleaned,
    clean_response response = Ok cleaned
    ∧ (startswith "```" (strip response) = false → cleaned = strip response).
Proof.
  unfold clean_response. destruct (startswith "```" (strip response)) eqn:Hfence.
  - pose proof (split_char_nonempty LF_char (strip response)) as Hne.
    destruct (split_char LF_char (strip response)) as [|l ls]; [done|].
    cbn [first_item mbind exc_bind]. eexists. split; [done | done].
  - eexists. split; [done | done].
Qed.

Lemma clean_response_fenced_witness :
  clean_response ("```" +:+ "python" +:+ LF +:+ "x = 1" +:+ LF +:+ "```") = Ok "x = 1".
Proof. apply (clean_response_fenced "python" "x = 1"). reflexivity. Defined.

Lemma clean_response_total_witness : clean_response "  x = 1  " = Ok "x = 1".
Proof.
  destruct (clean_response_total "  x = 1  ") as (cleaned & -> & Hcleaned).
  f_equal. apply Hcleaned. reflexivity.
Defined.

Example clean_response_python :
  clean_response ("Sure!" +:+ LF +:+ "```python" +:+ LF +:+ "x = 1" +:+ LF +:+ "```")
  = Ok ("Sure!" +:+ LF +:+ "```python" +:+ LF +:+ "x = 1" +:+ LF +:+ "```")
  ∧ clean_response ("  ```python" +:+ LF +:+ "x = 1" +:+ LF +:+ "```  " +:+ LF)
    = Ok "x = 1"
  ∧ clean_response ("```python" +:+ LF +:+ "x = 1") = Ok "x = 1"
  ∧ clean_response "```" = Ok "".
Proof. vm_compute. repeat split; reflexivity. Qed.

End CleanFacts.

(** ** Recovering the markup from retrieved chunks *)

Module RecoveryFacts.
Import PyText PyFacts PyTextFacts Bs4 DocumentProcessor VectorStore ScriptSynthesis
  Statements MoreStatements.

Section Recovery.
Context {float : Type}.

Lemma occurs_inside (needle pre post : string) : occurs needle (pre +:+ needle +:+ post).
Proof. by exists pre, post. Qed.

Lemma split_once (sep pre post : string) :
  cut sep (pre +:+ sep +:+ post) = Some (pre, post) →
  str_in sep post = false →
  sep ≠ "" →
  split sep (pre +:+ sep +:+ post) = [pre; post].
Proof.
  intros Hcut Hpost Hsep. unfold split.
  destruct (String.length (pre +:+ sep +:+ post)) as [|n] eqn:Hlen.
  { rewrite !length_append in Hlen. destruct sep; [done | cbn in Hlen; lia]. }
  cbn [split_fuel]. rewrite Hcut. f_equal.
  destruct n; cbn [split_fuel]; [done|]. by rewrite cut_absent.
Qed.

Lemma layout_split (soup : node) (html_content : string) :
  ¬ occurs delimiter (text_before_delimiter soup) →
  ¬ occurs delimiter html_content →
  split delimiter (html_layout soup html_content)
  = [text_before_delimiter soup; LF +:+ html_content].
Proof.
  intros Hbefore Hmarkup.
  assert (html_layout soup html_content
          = text_before_delimiter soup +:+ delimiter +:+ LF +:+ html_content) as ->.
  { unfold html_layout, text_before_delimiter. by rewrite !append_assoc. }
  apply split_once; [| |done].
  - unfold text_before_delimiter in *.
    rewrite <- !(append_assoc _ _ LF). rewrite <- !(append_assoc _ _ LF) in Hbefore.
    by apply cut_after_line.
  - apply str_in_absent in Hmarkup. unfold LF. rewrite append_cons, append_nil.
    cbn [str_in]. by rewrite Hmarkup.
Qed.

(** What [_extract_html] returns when the file is read and parsed. *)
Lemma extract_html_text (open_read : string → exc string) (html_parser : string → exc node)
    (file_path html_content : string) (soup : node) :
  open_read file_path = Ok html_content →
  html_parser html_content = Ok soup →
  _extract_html open_read html_parser file_path
  = Ok (text_before_delimiter soup +:+ delimiter +:+ LF +:+ html_content).
Proof.
  intros Hread Hparse. unfold _extract_html, text_before_delimiter, title_part, delimiter.
  rewrite Hread. cbn [mbind exc_bind]. rewrite Hparse. cbn [mbind exc_bind].
  destruct (find "title" soup) as [t|]; cbn [app join mret exc_ret try_except];
    by rewrite !append_assoc.
Qed.

(** X9: the markup comes back.  Take the text extracted from an HTML
    file that is read and parsed, and let it be retrieved whole as the
    first chunk.  The recovery then returns the markup of the file,
    stripped of surrounding white space, provided the delimiter line
    occurs neither in the title and visible text nor in the markup;
    the metadata and the chunks retrieved after it play no role. *)
Theorem markup_round_trip (open_read : string → exc string)
    (html_parser : string → exc node) (file_path html_content : string) (soup : node) :
  open_read file_path = Ok html_content →
  html_parser html_content = Ok soup →
  ¬ occurs delimiter (text_before_delimiter soup) →
  ¬ occurs delimiter html_content →
  ∃ text,
    _extract_html open_read html_parser file_path = Ok text
    ∧ ∀ (metadata : gmap string meta_value) (score : float) (others : list (hit float)),
        html_from_results float (Hit text metadata score :: others)
        = Ok (Some (strip html_content)).
Proof.
  intros Hread Hparse Hbefore Hmarkup. eexists. split.
  { by apply extract_html_text. }
  intros metadata score others.
  assert (text_before_delimiter soup +:+ delimiter +:+ LF +:+ html_content
          = html_layout soup html_content) as ->.
  { unfold html_layout, text_before_delimiter. by rewrite !append_assoc. }
  unfold html_from_results. cbn [first_html hit_content hit_metadata].
  assert (str_in "--- HTML Structure ---" (html_layout soup html_content) = true) as ->.
  { apply str_in_occurs. unfold html_layout. fold delimiter.
    exists (text_before_delimiter soup), (LF +:+ html_content).
    unfold text_before_delimiter. by rewrite !append_assoc. }
  assert (str_in "HTML Structure" (html_layout soup html_content) = true) as ->.
  { apply str_in_occurs. exists (text_before_delimiter soup +:+ "--- ").
    exists (" ---" +:+ LF +:+ html_content).
    unfold html_layout, text_before_delimiter. by rewrite !append_assoc. }
  rewrite orb_true_r. cbn [orb]. fold delimiter. rewrite layout_split by done. cbn.
  done.
Qed.

Lemma cut_present (sep s : string) :
  str_in sep s = true → ∃ before after, cut sep s = Some (before, after).
Proof.
  induction s as [|c s IH]; cbn [str_in cut].
  - destruct (startswith sep ""); [eauto | done].
  - destruct (startswith sep (String c s)); [eauto|].
    intros Hs. destruct (IH Hs) as (b & a & ->). eauto.
Qed.

Lemma split_has_two (sep s : string) :
  str_in sep s = true → sep ≠ "" → (1 <? length (split sep s))%nat = true.
Proof.
  intros Hs Hsep. destruct (cut_present sep s Hs) as (b & a & Hcut).
  unfold split. destruct (String.length s) as [|n] eqn:Hlen.
  { destruct s; [|done]. cbn in Hs. destruct sep; done. }
  cbn [split_fuel]. rewrite Hcut. by destruct n; [|cbn [split_fuel]; destruct (cut sep a) as [[]|]].
Qed.

(** A chunk without marker is passed over by the first loop, whatever
    its metadata says. *)
Lemma first_html_unmarked (r : hit float) (rest : list (hit float)) :
  has_marker (hit_content float r) = false →
  first_html float (r :: rest) = first_html float rest.
Proof.
  unfold has_marker, delimiter. intros H.
  apply orb_false_elim in H as [[Hd Hdoc]%orb_false_elim Hhtml].
  cbn [first_html]. rewrite Hd, Hdoc, Hhtml. cbn [orb].
  by destruct (_ || _).
Qed.

Lemma first_html_marked (r : hit float) (rest : list (hit float)) :
  has_marker (hit_content float r) = true →
  first_html float (r :: rest)
  = Some (if str_in delimiter (hit_content float r)
          then strip (nth 1 (split delimiter (hit_content float r)) "")
          else hit_content float r).
Proof.
  unfold has_marker. intros H. cbn [first_html]. fold delimiter.
  destruct (str_in delimiter (hit_content float r)) eqn:Hd.
  - assert (str_in "HTML Structure" (hit_content float r) = true) as ->.
    { apply str_in_occurs in Hd as (pre & post & ->). apply str_in_occurs.
      exists (pre +:+ "--- "), (" ---" +:+ post). unfold delimiter.
      by rewrite !append_assoc. }
    rewrite orb_true_r. cbn [orb]. by rewrite split_has_two.
  - cbn [orb] in H. rewrite H.
    assert (is_html_type (hit_metadata float r)
            || str_in "HTML Structure" (hit_content float r)
            || str_in "<!DOCTYPE" (hit_content float r)
            || str_in "<html" (hit_content float r) = true) as ->; [|done].
    rewrite <- orb_assoc, H. apply orb_true_r.
Qed.

(** X10: the first chunk with a marker decides.  When the chunks
    retrieved before a chunk carry no marker, and that chunk does, the
    recovery returns, if it holds the delimiter line, the stripped text
    between the first delimiter and the next, and otherwise the chunk
    as it is.  The [file_type] recorded in the metadata changes
    nothing. *)
Theorem first_marked_chunk_decides (before after : list (hit float)) (r : hit float) :
  Forall (λ b, has_marker (hit_content float b) = false) before →
  has_marker (hit_content float r) = true →
  html_from_results float (before ++ r :: after)
  = Ok (Some (if str_in delimiter (hit_content float r)
              then strip (nth 1 (split delimiter (hit_content float r)) "")
              else hit_content float r)).
Proof.
  intros Hbefore Hr. unfold html_from_results.
  assert (first_html float (before ++ r :: after)
          = Some (if str_in delimiter (hit_content float r)
                  then strip (nth 1 (split delimiter (hit_content float r)) "")
                  else hit_content float r)) as ->.
  { induction Hbefore as [|b before Hb _ IH]; cbn [app].
    - by apply first_html_marked.
    - by rewrite first_html_unmarked. }
  by destruct before.
Qed.

Lemma first_html_none (results : list (hit float)) :
  Forall (λ r, has_marker (hit_content float r) = false) results →
  first_html float results = None.
Proof.
  induction 1 as [|r results Hr _ IH]; [done|]. by rewrite first_html_unmarked.
Qed.

Lemma gather_html_chunks (results : list (hit float)) (acc : list string) :
  Forall source_is_text results →
  for_acc (λ html_chunks result,
             is_html ← source_is_html (hit_metadata float result);
             mret (if is_html : bool
                   then html_chunks ++ [hit_content float result]
                   else html_chunks))
          acc results
  = Ok (acc ++ map (hit_content float) (List.filter from_html_file results)).
Proof.
  intros Htext. revert acc. induction Htext as [|r results Hr _ IH]; intros acc.
  - by rewrite app_nil_r.
  - cbn [for_acc List.filter]. unfold source_is_html, from_html_file.
    specialize (Hr). unfold source_is_text in Hr.
    destruct (hit_metadata float r !! "source") as [[s|n]|] eqn:Hsrc.
    + cbn [mbind exc_bind mret exc_ret]. rewrite IH.
      destruct (endswith ".html" s); cbn [map]; by rewrite <- ?app_assoc.
    + by destruct (Hr n).
    + cbn [mbind exc_bind mret exc_ret]. rewrite IH.
      by change (endswith ".html" "") with false.
Qed.

(** X11: the fallback.  When no retrieved chunk carries a marker, the
    recovery returns the contents of the chunks whose source name ends
    in [.html], in retrieval order and joined by line feeds, and [None]
    when there is no such chunk. *)
Theorem fallback_joins_html_sources (results : list (hit float)) :
  Forall (λ r, has_marker (hit_content float r) = false) results →
  Forall source_is_text results →
  html_from_results float results
  = Ok (match List.filter from_html_file results with
        | [] => None
        | chosen => Some (join LF (map (hit_content float) chosen))
        end).
Proof.
  intros Hnone Htext. unfold html_from_results.
  destruct results as [|r results]; [done|].
  rewrite (first_html_none _ Hnone), (gather_html_chunks _ [] Htext). cbn [app mbind exc_bind].
  by destruct (List.filter from_html_file (r :: results)).
Qed.

End Recovery.

Lemma markup_round_trip_witness :
  ∃ text,
    _extract_html (λ _, Ok titled_markup) (λ _, Ok titled_page) "shop.html" = Ok text
    ∧ ∀ (metadata : gmap string meta_value) (score : Z) (others : list (hit Z)),
        html_from_results Z (Hit text metadata score :: others)
        = Ok (Some (strip titled_markup)).
Proof.
  apply (markup_round_trip (λ _, Ok titled_markup) (λ _, Ok titled_page) "shop.html"
           titled_markup titled_page); [reflexivity | reflexivity | |].
  - apply str_in_absent. vm_compute. reflexivity.
  - apply str_in_absent. vm_compute. reflexivity.
Defined.

Lemma first_marked_chunk_decides_witness :
  html_from_results Z ([prose_hit] ++ extracted_hit :: [raw_hit])
  = Ok (Some (if str_in delimiter (hit_content Z extracted_hit)
              then strip (nth 1 (split delimiter (hit_content Z extracted_hit)) "")
              else hit_content Z extracted_hit)).
Proof.
  apply (first_marked_chunk_decides [prose_hit] [raw_hit] extracted_hit).
  - repeat constructor.
  - vm_compute. reflexivity.
Defined.

Lemma fallback_joins_html_sources_witness :
  html_from_results Z [prose_hit; piece_hit]
  = Ok (match List.filter from_html_file [prose_hit; piece_hit] with
        | [] => None
        | chosen => Some (join LF (map (hit_content Z) chosen))
        end).
Proof.
  apply (fallback_joins_html_sources [prose_hit; piece_hit]).
  - repeat constructor.
  - repeat constructor; intros n Hn; vm_compute in Hn; discriminate.
Defined.

(** The text extracted from a page comes back as its markup, also when
    a piece of prose ranks first; a bare document ranking first is
    returned as it is; pieces of pages are joined. *)
Example recovery_on_samples :
  html_from_results Z [prose_hit; extracted_hit; raw_hit] = Ok (Some titled_markup)
  ∧ html_from_results Z [raw_hit; extracted_hit] = Ok (Some "<html><body>raw</body></html>")
  ∧ html_from_results Z [piece_hit; prose_hit; piece_hit]
    = Ok (Some ("<p>Pay</p>" +:+ LF +:+ "<p>Pay</p>"))
  ∧ html_from_results Z [prose_hit] = Ok None.
Proof. vm_compute. repeat split; reflexivity. Qed.

(** A source that is not a string makes the second loop raise. *)
Example recovery_on_numeric_source :
  html_from_results Z [Hit "<p>Pay</p>" {[ "source" := MInt 7 ]} 1]
  = Raise (AttributeError "'int' object has no attribute 'endswith'").
Proof. vm_compute. reflexivity. Qed.

End RecoveryFacts.

(** ** The vector index: writing, clearing, searching *)

Module IndexFacts.
Import DocumentProcessor VectorStore Statements MoreStatements Maintenance ScriptSynthesis
  VectorStoreFacts.

Section Store.
Context {float : Type}.
Variable encode_model : list string → list (list float).
Variable nearest : list (point float) → list float → Z → option query_filter
                   → list (scored_point float).
Variable uuid_of : nat → string.
Variable collection_name : string.

Lemma all_served_after (w : world float) (rq : request float)
    (cs : gmap string (collection float)) :
  all_served w → all_served (after_call w rq cs).
Proof.
  unfold all_served, after_call. cbn. intros Hw. destruct Hw; [done | done].
Qed.

Lemma all_served_tail (w w' : world float) :
  all_served w → faults w' = tail (faults w) → all_served w'.
Proof.
  unfold all_served. intros Hw ->. destruct Hw; [done | done].
Qed.

(** An external call in a world where nothing is scheduled to fail. *)
Lemma external_served {A} (rq : request float)
    (serve : gmap string (collection float) → exc (A * gmap string (collection float)))
    (w : world float) :
  all_served w →
  external float rq serve w =
    match serve (collections w) with
    | Ok (a, cs) => (Ok a, after_call w rq cs)
    | Raise e => (Raise e, after_call w rq (collections w))
    end.
Proof.
  unfold all_served, external, after_call. intros Hw.
  destruct (faults w) as [|[e|] fs]; [done| |done].
  by apply Forall_cons_1 in Hw as [? _].
Qed.

(** An external call that is scheduled to fail. *)
Lemma external_failing {A} (rq : request float)
    (serve : gmap string (collection float) → exc (A * gmap string (collection float)))
    (w : world float) (e : exn) (fs : list (option exn)) :
  faults w = Some e :: fs →
  external float rq serve w = (Raise e, after_call w rq (collections w)).
Proof. unfold external, after_call. by intros ->. Qed.

Lemma external_next {A} (rq : request float)
    (serve : gmap string (collection float) → exc (A * gmap string (collection float)))
    (w : world float) (fs : list (option exn)) :
  faults w = None :: fs →
  external float rq serve w =
    match serve (collections w) with
    | Ok (a, cs) => (Ok a, after_call w rq cs)
    | Raise e => (Raise e, after_call w rq (collections w))
    end.
Proof. unfold external, after_call. by intros ->. Qed.

(** Running a sequence of calls one step further. *)
Ltac run :=
  repeat first
    [ rewrite bind_run
    | progress cbn [negb andb orb mret M_ret first_item]
    | progress unfold lift ].

Lemma not_listed (cs : gmap string (collection float)) :
  cs !! collection_name = None →
  existsb (λ col, String.eqb col collection_name) (map_to_list cs).*1 = false.
Proof.
  intros Hc. destruct (existsb _ _) eqn:Hex; [|done].
  apply existsb_exists in Hex as (col & Hin & Heq%String.eqb_eq). subst col.
  apply list_elem_of_In, list_elem_of_fmap in Hin as ([k c] & -> & Hkc).
  apply elem_of_map_to_list in Hkc. cbn in Hc. congruence.
Qed.

(** The creation proper, in a world without the collection. *)
Lemma create_absent (force : bool) (w : world float) (probe : list float)
    (rest : list (list float)) :
  all_served w →
  collections w !! collection_name = None →
  encode_model ["test"] = probe :: rest →
  ∃ w',
    create_collection float encode_model collection_name force w = (Ok true, w')
    ∧ collections w' = <[collection_name := Collection (length probe) []]> (collections w)
    ∧ all_served w'
    ∧ uuids_drawn w' = uuids_drawn w.
Proof.
  intros Hw Hc Hprobe.
  unfold create_collection, try_M. rewrite bind_run.
  unfold get_collections. rewrite (external_served _ _ w Hw), (not_listed _ Hc).
  run. unfold encode. rewrite external_served by by apply all_served_after.
  rewrite Hprobe. run.
  unfold client_create_collection. rewrite external_served by by do 2 apply all_served_after.
  cbn [collections after_call]. rewrite Hc.
  eexists. split; [done|]. split; [done|]. split; [|done].
  by do 3 apply all_served_after.
Qed.

Lemma create_force_present (w : world float) (c : collection float) (probe : list float)
    (rest : list (list float)) :
  all_served w →
  collections w !! collection_name = Some c →
  encode_model ["test"] = probe :: rest →
  ∃ w',
    create_collection float encode_model collection_name true w = (Ok true, w')
    ∧ collections w' = <[collection_name := Collection (length probe) []]> (collections w)
    ∧ all_served w'
    ∧ uuids_drawn w' = uuids_drawn w.
Proof.
  intros Hw Hc Hprobe.
  unfold create_collection, try_M. rewrite bind_run.
  unfold get_collections. rewrite (external_served _ _ w Hw), (listed _ _ _ Hc).
  run. unfold delete_collection. rewrite external_served by by apply all_served_after.
  run. unfold encode. rewrite external_served by by do 2 apply all_served_after.
  rewrite Hprobe. run.
  unfold client_create_collection. rewrite external_served by by do 3 apply all_served_after.
  cbn [collections after_call]. rewrite lookup_delete_eq.
  eexists. split; [done|]. split; [by rewrite insert_delete_eq|]. split; [|done].
  by do 4 apply all_served_after.
Qed.

(** Recreation, whether or not the collection was there. *)
Lemma create_forced (w : world float) (probe : list float) (rest : list (list float)) :
  all_served w →
  encode_model ["test"] = probe :: rest →
  ∃ w',
    create_collection float encode_model collection_name true w = (Ok true, w')
    ∧ collections w' = <[collection_name := Collection (length probe) []]> (collections w)
    ∧ all_served w'
    ∧ uuids_drawn w' = uuids_drawn w.
Proof.
  intros Hw Hprobe. destruct (collections w !! collection_name) as [c|] eqn:Hc.
  - by apply (create_force_present w c probe rest).
  - by apply (create_absent true w probe rest).
Qed.

(** X12: recreation.  When no call fails and the embedding model answers
    the probe, [create_collection] with [force_recreate], or for a
    collection that does not exist yet, reports success and leaves the
    collection empty, with the dimension of the probe embedding; the
    other collections are as before. *)
Theorem create_collection_gives_empty (force : bool) (w : world float)
    (probe : list float) (rest : list (list float)) :
  all_served w →
  force = true ∨ collections w !! collection_name = None →
  encode_model ["test"] = probe :: rest →
  ∃ w',
    create_collection float encode_model collection_name force w = (Ok true, w')
    ∧ collections w' = <[collection_name := Collection (length probe) []]> (collections w).
Proof.
  intros Hw Hcase Hprobe.
  destruct (collections w !! collection_name) as [c|] eqn:Hc.
  - destruct Hcase as [->|?]; [|done].
    destruct (create_force_present w c probe rest Hw Hc Hprobe) as (w' & ? & ? & _). eauto.
  - destruct (create_absent force w probe rest Hw Hc Hprobe) as (w' & ? & ? & _). eauto.
Qed.

(** X13: clearing.  When no call fails and the embedding model answers
    the probe, [clear_collection] reports success and the collection is
    there again, empty. *)
Theorem clear_collection_empties (w : world float) (probe : list float)
    (rest : list (list float)) :
  all_served w →
  encode_model ["test"] = probe :: rest →
  ∃ w',
    clear_collection float encode_model collection_name w = (Ok true, w')
    ∧ collections w' = <[collection_name := Collection (length probe) []]> (collections w).
Proof.
  intros Hw Hprobe. unfold clear_collection, try_M. rewrite bind_run.
  unfold delete_collection. rewrite (external_served _ _ w Hw). rewrite bind_run.
  destruct (create_absent false
              (after_call w (DeleteCollection collection_name)
                 (delete collection_name (collections w))) probe rest)
    as (w' & -> & Hcs & _);
    [by apply all_served_after | by cbn; rewrite lookup_delete_eq | done |].
  exists w'. split; [done|]. rewrite Hcs. cbn. by rewrite insert_delete_eq.
Qed.

(** X14: a clearing that is not one.  When the deletion is served and the
    call after it, the listing made by the recreation, fails,
    [clear_collection] still reports success: the collection is gone
    and has not been created again. *)
Theorem clear_collection_reports_success (w : world float) (e : exn)
    (fs : list (option exn)) :
  faults w = None :: Some e :: fs →
  ∃ w',
    clear_collection float encode_model collection_name w = (Ok true, w')
    ∧ collections w' !! collection_name = None
    ∧ requests w' = requests w ++ [DeleteCollection collection_name; GetCollections].
Proof.
  intros Hw. unfold clear_collection, try_M. rewrite bind_run.
  unfold delete_collection. rewrite (external_next _ _ w _ Hw). rewrite bind_run.
  unfold create_collection, try_M. rewrite bind_run.
  unfold get_collections. rewrite (external_failing _ _ _ e fs) by by cbn; rewrite Hw.
  run. eexists. split; [done|]. cbn. split; [apply lookup_delete_eq | by rewrite <- app_assoc].
Qed.

(** X15: no embedding, no write.  When the embedding call fails,
    [add_documents] reports failure after that one request: nothing has
    been written. *)
Theorem add_documents_embedding_fails (documents : list document) (w : world float)
    (e : exn) (fs : list (option exn)) :
  documents ≠ [] →
  faults w = Some e :: fs →
  add_documents float encode_model uuid_of collection_name documents w
  = (Ok false, after_call w (Encode (map content documents)) (collections w)).
Proof.
  intros Hdocs Hw. unfold add_documents, try_M.
  destruct documents as [|d documents]; [done|].
  rewrite bind_run. unfold generate_embeddings, try_M, encode.
  by rewrite (external_failing _ _ _ e fs).
Qed.

Lemma upsert_all_served (batches : list (list (point float))) (w : world float)
    (c : collection float) :
  all_served w →
  collections w !! collection_name = Some c →
  ∃ wn,
    for_each float batches (upsert float collection_name) w = (Ok tt, wn)
    ∧ collections wn
      = <[collection_name := Collection (vector_size c)
                               (foldl (upsert_point float) (points c) (concat batches))]>
          (collections w)
    ∧ all_served wn.
Proof.
  revert w c; induction batches as [|b batches IH]; intros w c Hw Hc.
  - exists w. split; [done|]. split; [|done]. cbn. destruct c. by rewrite insert_id.
  - cbn [for_each]. rewrite bind_run. unfold upsert at 1.
    rewrite (external_served _ _ w Hw), Hc.
    destruct (IH (after_call w (Upsert collection_name b)
                    (<[collection_name := Collection (vector_size c)
                                            (foldl (upsert_point float) (points c) b)]>
                       (collections w)))
                 (Collection (vector_size c) (foldl (upsert_point float) (points c) b)))
      as (wn & -> & Hcs & Hwn);
      [by apply all_served_after | by cbn; rewrite lookup_insert_eq |].
    exists wn. split; [done|]. split; [|done].
    rewrite Hcs. cbn. by rewrite insert_insert_eq, foldl_app.
Qed.

Lemma upsert_point_fresh (stored : list (point float)) (p : point float) :
  id p ∉ map id stored → upsert_point float stored p = stored ++ [p].
Proof.
  intros Hfresh. unfold upsert_point. f_equal.
  induction stored as [|q stored IH]; [done|]. cbn [List.filter].
  destruct (String.eqb_spec (id q) (id p)) as [Heq|_].
  - exfalso. apply Hfresh. cbn. rewrite Heq. apply list_elem_of_here.
  - cbn. f_equal. apply IH. intros Hin. apply Hfresh. cbn. by apply list_elem_of_further.
Qed.

(** Writing points whose identifiers are new adds them at the end. *)
Lemma upsert_fresh (pts stored : list (point float)) :
  NoDup (map id (stored ++ pts)) →
  foldl (upsert_point float) stored pts = stored ++ pts.
Proof.
  revert stored; induction pts as [|p pts IH]; intros stored Hnd.
  - by rewrite app_nil_r.
  - cbn [foldl]. rewrite upsert_point_fresh.
    + rewrite IH; [by rewrite <- app_assoc|]. by rewrite <- app_assoc.
    + rewrite map_app in Hnd. apply NoDup_app in Hnd as (_ & Hdisj & _).
      intros Hin. apply (Hdisj _ Hin). cbn. apply list_elem_of_here.
Qed.

Lemma payload_points_of (n : nat) (documents : list document)
    (embeddings : list (list float)) :
  map payload (points_of uuid_of n documents embeddings)
  = take (length embeddings) documents.
Proof.
  unfold points_of. revert n embeddings.
  induction documents as [|d documents IH]; intros n [|v embeddings]; try done.
  cbn. f_equal. rewrite <- (IH (S n) embeddings). f_equal.
  apply imap_ext. intros i [d' v'] _. cbn. do 2 f_equal. lia.
Qed.

(** Writing documents whose identifiers are new, when no call fails. *)
Lemma add_documents_fresh (documents : list document) (w : world float)
    (c : collection float) :
  documents ≠ [] →
  all_served w →
  collections w !! collection_name = Some c →
  encode_model (map content documents) ≠ [] →
  let pts := points_of uuid_of (uuids_drawn w) documents
               (encode_model (map content documents)) in
  NoDup (map id (points c ++ pts)) →
  ∃ w',
    add_documents float encode_model uuid_of collection_name documents w = (Ok true, w')
    ∧ collections w'
      = <[collection_name := Collection (vector_size c) (points c ++ pts)]> (collections w).
Proof.
  intros Hdocs Hw Hc Hemb pts Hnd.
  pose (w1 := after_call w (Encode (map content documents)) (collections w)).
  assert (generate_embeddings float encode_model (map content documents) w
          = (Ok (encode_model (map content documents)), w1)) as Hgen.
  { unfold generate_embeddings, try_M, encode. by rewrite (external_served _ _ w Hw). }
  rewrite (add_documents_run encode_model uuid_of collection_name documents _ w w1
             Hdocs Hgen Hemb).
  cbn zeta. cbn [w1 after_call uuids_drawn collections faults requests]. fold pts.
  destruct (upsert_all_served (batches_of pts)
              (World (collections w) (tail (faults w))
                 (requests w ++ [Encode (map content documents)])
                 (uuids_drawn w + length pts)) c)
    as (wn & -> & Hcs & _); [by apply (all_served_tail w) | done |].
  exists wn. split; [done|].
  rewrite Hcs. cbn [collections].
  destruct (batches_of_sizes pts) as [_ ->]. by rewrite upsert_fresh.
Qed.

(** X16: everything is stored.  When no call fails, the collection exists
    and the identifiers drawn are new and distinct, [add_documents]
    reports success and the collection holds the points it held
    followed by one point per document, in order, each with its
    document as payload. *)
Theorem add_documents_stores_all (documents : list document) (w : world float)
    (c : collection float) :
  documents ≠ [] →
  all_served w →
  collections w !! collection_name = Some c →
  encode_model (map content documents) ≠ [] →
  let pts := points_of uuid_of (uuids_drawn w) documents
               (encode_model (map content documents)) in
  NoDup (map id (points c ++ pts)) →
  ∃ w',
    add_documents float encode_model uuid_of collection_name documents w = (Ok true, w')
    ∧ collections w'
      = <[collection_name := Collection (vector_size c) (points c ++ pts)]> (collections w)
    ∧ map payload pts = take (length (encode_model (map content documents))) documents.
Proof.
  intros Hdocs Hw Hc Hemb pts Hnd.
  destruct (add_documents_fresh documents w c Hdocs Hw Hc Hemb Hnd) as (w' & Hrun & Hcs).
  exists w'. split; [done|]. split; [done|]. apply payload_points_of.
Qed.

(** X17: rebuilding.  When no call fails, recreating the collection and
    then adding documents, as the interface does to build the knowledge
    base, leaves in the collection exactly the points of these
    documents: what it held before is gone. *)
Theorem rebuild_holds_new_documents (documents : list document) (w : world float)
    (probe : list float) (rest : list (list float)) :
  documents ≠ [] →
  all_served w →
  encode_model ["test"] = probe :: rest →
  encode_model (map content documents) ≠ [] →
  let pts := points_of uuid_of (uuids_drawn w) documents
               (encode_model (map content documents)) in
  NoDup (map id pts) →
  ∃ w1 w2,
    create_collection float encode_model collection_name true w = (Ok true, w1)
    ∧ add_documents float encode_model uuid_of collection_name documents w1 = (Ok true, w2)
    ∧ collections w2 = <[collection_name := Collection (length probe) pts]> (collections w).
Proof.
  intros Hdocs Hw Hprobe Hemb pts Hnd.
  destruct (create_forced w probe rest Hw Hprobe) as (w1 & Hcreate & Hcs1 & Hw1 & Hn1).
  destruct (add_documents_fresh documents w1 (Collection (length probe) []))
    as (w2 & Hadd & Hcs2);
    [done | done | by rewrite Hcs1, lookup_insert_eq | done | by rewrite Hn1 |].
  exists w1, w2. split; [done|]. split; [done|].
  rewrite Hcs2, Hcs1, Hn1. cbn. by rewrite insert_insert_eq.
Qed.

(** *** Searching *)

Lemma external_effect {A} (rq : request float)
    (serve : gmap string (collection float) → exc (A * gmap string (collection float)))
    (w : world float) :
  (∀ cs a cs', serve cs = Ok (a, cs') → cs' = cs) →
  collections (external float rq serve w).2 = collections w
  ∧ requests (external float rq serve w).2 = requests w ++ [rq].
Proof.
  intros Hro. unfold external.
  destruct (faults w) as [|[e|] fs]; [|done|];
    destruct (serve (collections w)) as [[a cs]|e] eqn:Hs; cbn;
    by rewrite ?(Hro _ _ _ Hs).
Qed.

(** One attempt reads the index: it issues the embedding request and at
    most one search request, and changes no collection. *)
Lemma attempt_effect (query : string) (top_k : Z)
    (filter_dict : option (list (string * filter_value))) (w : world float) :
  ∃ r w1 new,
    search_attempt float encode_model nearest collection_name query top_k filter_dict w
    = (r, w1)
    ∧ collections w1 = collections w
    ∧ requests w1 = requests w ++ new
    ∧ (length (List.filter is_search new) ≤ 1)%nat.
Proof.
  unfold search_attempt. rewrite bind_run.
  pose proof (external_effect (Encode [query]) (λ cs, Ok (encode_model [query], cs)) w)
    as [Hc1 Hr1]; [by intros ??? [= _ ->]|].
  unfold encode. destruct (external float (Encode [query]) _ w) as [[encoded|e] w1].
  2: { exists (Raise e), w1, [Encode [query]]. cbn in *. split_and!; [done..|lia]. }
  cbn [snd] in Hc1, Hr1. rewrite bind_run. unfold lift.
  destruct (first_item encoded) as [query_embedding|e].
  2: { exists (Raise e), w1, [Encode [query]]. cbn. split_and!; [done..|lia]. }
  rewrite bind_run. unfold client_search.
  match goal with
  | |- context [external float ?rq ?serve w1] =>
      pose proof (external_effect rq serve w1) as [Hc2 Hr2];
        [intros cs a cs'; destruct (cs !! collection_name); by intros [= _ ->]|];
      destruct (external float rq serve w1) as [[results|e] w2];
        cbn [snd] in Hc2, Hr2
  end.
  - eexists _, w2, [Encode [query]; _]. split; [done|]. split; [congruence|].
    split; [by rewrite Hr2, Hr1, <- app_assoc | cbn; lia].
  - eexists _, w2, [Encode [query]; _]. split; [done|]. split; [congruence|].
    split; [by rewrite Hr2, Hr1, <- app_assoc | cbn; lia].
Qed.

(** X18: a search always answers.  Whatever fails, [search] raises
    nothing and returns a list; it changes no collection and issues at
    most two search requests. *)
Theorem search_returns (n : nat) (query : string) (top_k : Z)
    (filter_dict : option (list (string * filter_value))) (w : world float) :
  ∃ results w' new,
    search_fuel float encode_model nearest collection_name (S (S n)) query top_k
      filter_dict w = (Ok (Some results), w')
    ∧ collections w' = collections w
    ∧ requests w' = requests w ++ new
    ∧ (length (List.filter is_search new) ≤ 2)%nat.
Proof.
  destruct (attempt_effect query top_k filter_dict w) as (r & w1 & new1 & H1 & Hc1 & Hr1 & Hn1).
  destruct r as [results|e].
  { exists results, w1, new1. rewrite (search_first_attempt _ _ _ _ _ _ _ _ _ _ H1).
    split_and!; [done..|lia]. }
  cbn [search_fuel]. unfold try_M at 1. rewrite bind_run, H1.
  destruct (provided filter_dict).
  2: { exists [], w1, new1. split_and!; [done..|lia]. }
  change (try_M float _ _ w1)
    with (search_fuel float encode_model nearest collection_name (S n) query top_k None w1).
  rewrite search_unfiltered by done.
  destruct (attempt_effect query top_k None w1) as (r2 & w2 & new2 & -> & Hc2 & Hr2 & Hn2).
  exists (match r2 with Ok results => results | Raise _ => [] end), w2, (new1 ++ new2).
  split; [by destruct r2|]. split; [congruence|].
  split; [by rewrite Hr2, Hr1, <- app_assoc|].
  rewrite List.filter_app, length_app. lia.
Qed.

(** X19: no index, no markup.  When the first call of the recovery, the
    embedding of its query, fails, [get_html_content] returns [None]
    after that one request. *)
Theorem get_html_content_unreachable (w : world float) (e : exn) (fs : list (option exn)) :
  faults w = Some e :: fs →
  get_html_content float encode_model nearest collection_name w
  = (Ok None,
     after_call w (Encode ["HTML structure checkout form button input select"])
       (collections w)).
Proof.
  intros Hw. unfold get_html_content, try_M. rewrite bind_run.
  unfold search. rewrite search_unfiltered by done.
  unfold search_attempt. rewrite bind_run. unfold encode.
  by rewrite (external_failing _ _ _ e fs).
Qed.

End Store.

Lemma create_collection_gives_empty_witness :
  ∃ w',
    create_collection Z toy_encode toy_name true (toy_world []) = (Ok true, w')
    ∧ collections w' = <[toy_name := Collection (length [0]) []]> (collections (toy_world [])).
Proof.
  apply (create_collection_gives_empty toy_encode toy_name true (toy_world []) [0] []).
  - constructor.
  - by left.
  - reflexivity.
Defined.

Lemma clear_collection_empties_witness :
  ∃ w',
    clear_collection Z toy_encode toy_name (toy_world []) = (Ok true, w')
    ∧ collections w' = <[toy_name := Collection (length [0]) []]> (collections (toy_world [])).
Proof.
  apply (clear_collection_empties toy_encode toy_name (toy_world []) [0] []).
  - constructor.
  - reflexivity.
Defined.

Lemma clear_collection_reports_success_witness :
  ∃ w',
    clear_collection Z toy_encode toy_name listing_fails = (Ok true, w')
    ∧ collections w' !! toy_name = None
    ∧ requests w' = requests listing_fails ++ [DeleteCollection toy_name; GetCollections].
Proof.
  apply (clear_collection_reports_success toy_encode toy_name listing_fails
           (IOError "timed out") []).
  reflexivity.
Defined.

Lemma add_documents_embedding_fails_witness :
  add_documents Z toy_encode toy_uuid toy_name [toy_doc] unreachable
  = (Ok false, after_call unreachable (Encode (map content [toy_doc]))
                 (collections unreachable)).
Proof.
  apply (add_documents_embedding_fails toy_encode toy_uuid toy_name [toy_doc] unreachable
           (IOError "connection refused") []); [done | reflexivity].
Defined.

Lemma add_documents_stores_all_witness :
  let stored := PointStruct "id-old" [7] toy_doc in
  let pts := points_of toy_uuid 0 [toy_doc; toy_doc] (toy_encode ["pay with card"; "pay with card"]) in
  ∃ w',
    add_documents Z toy_encode toy_uuid toy_name [toy_doc; toy_doc] (toy_world [])
    = (Ok true, w')
    ∧ collections w' = <[toy_name := Collection 1 ([stored] ++ pts)]> (collections (toy_world []))
    ∧ map payload pts = take 2 [toy_doc; toy_doc].
Proof.
  apply (add_documents_stores_all toy_encode toy_uuid toy_name [toy_doc; toy_doc]
           (toy_world []) (Collection 1 [PointStruct "id-old" [7] toy_doc])).
  - done.
  - constructor.
  - reflexivity.
  - done.
  - apply (bool_decide_unpack _). vm_compute. exact I.
Defined.

Lemma rebuild_holds_new_documents_witness :
  let pts := points_of toy_uuid 0 [toy_doc; toy_doc] (toy_encode ["pay with card"; "pay with card"]) in
  ∃ w1 w2,
    create_collection Z toy_encode toy_name true (toy_world []) = (Ok true, w1)
    ∧ add_documents Z toy_encode toy_uuid toy_name [toy_doc; toy_doc] w1 = (Ok true, w2)
    ∧ collections w2 = <[toy_name := Collection (length [0]) pts]> (collections (toy_world [])).
Proof.
  apply (rebuild_holds_new_documents toy_encode toy_uuid toy_name [toy_doc; toy_doc]
           (toy_world []) [0] []).
  - done.
  - constructor.
  - reflexivity.
  - done.
  - apply (bool_decide_unpack _). vm_compute. exact I.
Defined.

Lemma get_html_content_unreachable_witness :
  get_html_content Z toy_encode toy_nearest toy_name unreachable
  = (Ok None,
     after_call unreachable (Encode ["HTML structure checkout form button input select"])
       (collections unreachable)).
Proof.
  apply (get_html_content_unreachable toy_encode toy_nearest toy_name unreachable
           (IOError "connection refused") []).
  reflexivity.
Defined.

(** Whatever the schedule, a search in the toy world comes back with a
    list; with every call failing the list is empty and two attempts
    were made. *)
Example search_in_failing_world :
  let w := toy_world [Some (IOError "a"); Some (IOError "b"); Some (IOError "c")] in
  let r := search Z toy_encode toy_nearest toy_name "checkout form" 5
             (Some [("file_type", FStr "html")]) w in
  r.1 = Ok (Some [])
  ∧ map request_size (requests r.2) = [("encode", 1%nat); ("encode", 1%nat)].
Proof. vm_compute. split; reflexivity. Qed.

(** After a rebuild in the toy world the collection holds two points
    and the old one is gone; the recovery of markup from an index of
    prose finds nothing. *)
Example rebuild_in_toy_world :
  let w1 := (create_collection Z toy_encode toy_name true (toy_world [])).2 in
  let w2 := (add_documents Z toy_encode toy_uuid toy_name [toy_doc; toy_doc] w1).2 in
  (map id ∘ points <$> collections w2 !! toy_name) = Some ["id-0"; "id-1"]
  ∧ (get_html_content Z toy_encode toy_nearest toy_name w2).1 = Ok None.
Proof. vm_compute. split; reflexivity. Qed.

End IndexFacts.

(** ** The language-model client *)

Module LLMFacts.
Import VectorStore LLMClient PyFacts MoreStatements.

Section Client.
Variable requests_post : string → option (list (string * string)) → json → Z → exc response.
Variable self : client.

(** X20: no answer without a 200.  Whatever the backend, [generate]
    returns a value only if the request it posted, to the address, with
    the headers, the payload and the timeout of its backend, was
    answered with status 200 and a body that parses; the value then has
    a length (string, list or dictionary).  Any other outcome of that
    request, an exception of the transport included, gives [None]. *)
Theorem generate_needs_200 (prompt : string) (system_prompt : option string)
    (temperature : string) (max_tokens : Z) (answer : json) :
  generate requests_post self prompt system_prompt temperature max_tokens = Some answer →
  ∃ resp body n,
    posted requests_post self prompt system_prompt temperature max_tokens = Ok resp
    ∧ status_code resp = 200
    ∧ json_body resp = Ok body
    ∧ py_len answer = Ok n.
Proof.
  unfold generate, posted, _generate_groq, _generate_ollama. cbn zeta. intros H.
  destruct (use_groq self).
  all: match type of H with
       | context [requests_post ?u ?h ?p ?t] =>
           destruct (requests_post u h p t) as [resp|e] eqn:Hpost; [|done];
             exists resp
       end.
  all: cbn [mbind exc_bind] in H.
  all: destruct (Z.eqb_spec (status_code resp) 200) as [H200|_]; [|done].
  all: match type of H with
       | context [match ?x with Ok _ => _ | Raise _ => _ end] =>
           destruct x as [r|e] eqn:Hbody; [subst r|done]
       end.
  all: apply bind_Ok in Hbody as (body & Hjson & Hbody).
  all: repeat match type of Hbody with
              | mbind _ _ = Ok _ =>
                  let x := fresh "x" in
                  let Hx := fresh "Hx" in
                  apply bind_Ok in Hbody as (x & Hx & Hbody)
              end.
  all: injection Hbody as <-.
  all: exists body; eexists; split; [exact Hpost|]; eauto.
Qed.

(** X21: the text of the first choice.  When every request is answered
    with status 200 and a JSON object whose [choices] start with an
    object holding [message.content], a string, the hosted backend
    returns that string; further choices and other fields are not
    looked at. *)
Theorem generate_groq_first_choice (prompt : string) (system_prompt : option string)
    (temperature : string) (max_tokens : Z)
    (fields choice message : gmap string json) (others : list json) (text : string) :
  (∀ url headers payload timeout,
     requests_post url headers payload timeout = Ok (Response 200 (Ok (JDict fields)))) →
  fields !! "choices" = Some (JList (JDict choice :: others)) →
  choice !! "message" = Some (JDict message) →
  message !! "content" = Some (JStr text) →
  _generate_groq requests_post self prompt system_prompt temperature max_tokens
  = Some (JStr text).
Proof.
  intros Hpost Hchoices Hmessage Hcontent. unfold _generate_groq.
  rewrite Hpost. cbn [mbind exc_bind status_code json_body Z.eqb Pos.eqb subscript_key].
  rewrite Hchoices. cbn [mbind exc_bind subscript_first subscript_key].
  rewrite Hmessage. cbn [mbind exc_bind subscript_key]. by rewrite Hcontent.
Qed.

(** X22: an answer without text.  When the local backend is answered with
    status 200 and a JSON object without [response], the result is the
    empty string, not [None]. *)
Theorem generate_ollama_missing_response (prompt : string) (system_prompt : option string)
    (temperature : string) (max_tokens : Z) (fields : gmap string json) :
  (∀ url headers payload timeout,
     requests_post url headers payload timeout = Ok (Response 200 (Ok (JDict fields)))) →
  fields !! "response" = None →
  _generate_ollama requests_post self prompt system_prompt temperature max_tokens
  = Some (JStr "").
Proof.
  intros Hpost Hnone. unfold _generate_ollama.
  rewrite Hpost. cbn [mbind exc_bind status_code json_body Z.eqb Pos.eqb dict_get].
  by rewrite Hnone.
Qed.

End Client.

Lemma generate_needs_200_witness :
  ∃ resp body n,
    posted (answers_choice_at (base_url hosted)) hosted "Write a test" (Some "Be brief")
      "0.2" 2500 = Ok resp
    ∧ status_code resp = 200
    ∧ json_body resp = Ok body
    ∧ py_len (JStr "print(1)") = Ok n.
Proof.
  apply (generate_needs_200 (answers_choice_at (base_url hosted)) hosted "Write a test"
           (Some "Be brief") "0.2" 2500 (JStr "print(1)")).
  vm_compute. reflexivity.
Defined.

(** A transport that answers with status 200 at another address only
    gives nothing, for either backend. *)
Example generate_answered_elsewhere :
  generate (answers_choice_at "http://localhost:11434/api/generate") hosted
    "Write a test" None "0.2" 2500 = None
  ∧ generate (answers_choice_at (base_url hosted)) local "Write a test" None "0.2" 2500
    = None.
Proof. vm_compute. split; reflexivity. Qed.

Lemma generate_groq_first_choice_witness :
  _generate_groq answers_choice hosted "Write a test" None "0.2" 2500
  = Some (JStr "print(1)").
Proof.
  apply (generate_groq_first_choice answers_choice hosted "Write a test" None "0.2" 2500
           {[ "choices" :=
                JList [JDict {[ "message" :=
                                  JDict {[ "role" := JStr "assistant";
                                           "content" := JStr "print(1)" ]} ]}] ]}
           {[ "message" := JDict {[ "role" := JStr "assistant";
                                    "content" := JStr "print(1)" ]} ]}
           {[ "role" := JStr "assistant"; "content" := JStr "print(1)" ]} []
           "print(1)"); [reflexivity | vm_compute; reflexivity ..].
Defined.

Lemma generate_ollama_missing_response_witness :
  _generate_ollama answers_done local "Write a test" None "0.2" 2500 = Some (JStr "").
Proof.
  apply (generate_ollama_missing_response answers_done local "Write a test" None "0.2" 2500
           {[ "done" := JBool true ]}); [reflexivity | vm_compute; reflexivity].
Defined.

(** The same body read by the other backend gives nothing. *)
Example generate_groq_missing_choices :
  _generate_groq answers_done hosted "Write a test" None "0.2" 2500 = None
  ∧ generate answers_done local "Write a test" None "0.2" 2500 = Some (JStr "")
  ∧ generate (λ _ _ _ _, Raise (IOError "timed out")) local "Write a test" None "0.2" 2500
    = None.
Proof. vm_compute. repeat split; reflexivity. Qed.

End LLMFacts.
